(** * helixbox-mcp: the session gateway, its cache and its tool handlers

    A shallow embedding of [src/index.ts] (the streamable-HTTP server: the
    router of [app.post("/mcp")], [handleSessionRequest], the [transports]
    registry, the tool handlers registered on each new server) and of
    [src/helper.ts] ([safeStringify]).

    JavaScript values are an inductive type; the handlers are written in a
    small state-and-exception monad over the process-wide state (the
    [NodeCache] instance, the clock and a log of the calls made to the
    remote service), one invocation running after the other. What the
    repository does not own is a parameter of the development: the number
    type of the runtime, the remote SDK, [JSON.parse], [URLSearchParams],
    [randomUUID] and the SDK's [isInitializeRequest]. A thrown error is an
    [Error] object, kept by its [message].

    The definitions come first, the theorems after them, and last the
    development instantiated on a small remote service. *)

From Stdlib Require Import ZArith String Ascii List Bool Lia.
From Stdlib Require Import Decimal DecimalString DecimalZ.
From stdpp Require Import gmap strings list.

Local Open Scope string_scope.

(** ** Strings of the runtime *)

(** The double quote, by its code. *)
Definition dquote : string := String (ascii_of_nat 34) EmptyString.

(** [BigInt.prototype.toString()]: the decimal digits, with a leading minus
    sign for a negative integer. *)
Definition BigInt_toString (z : Z) : string :=
  NilZero.string_of_int (Z.to_int z).

(** Reading a decimal numeral back (the inverse direction, used to state that
    no digit is lost). *)
Definition BigInt_parse (s : string) : option Z :=
  match NilZero.int_of_string s with
  | Some d => Some (Z.of_int d)
  | None => None
  end.

(** The string of an array index, as [JSON.stringify] passes it to a replacer. *)
Definition index_toString (i : nat) : string := BigInt_toString (Z.of_nat i).

Definition hex_digit (n : nat) : ascii :=
  ascii_of_nat (if Nat.ltb n 10 then 48 + n else 87 + n).

(** ECMAScript [QuoteJSONString], one code unit at a time: the two-character
    escapes, [\u00xx] for the other control characters, the character itself
    otherwise. *)
Definition quote_char (c : ascii) : string :=
  let n := nat_of_ascii c in
  if Nat.eqb n 8 then "\b"
  else if Nat.eqb n 9 then "\t"
  else if Nat.eqb n 10 then "\n"
  else if Nat.eqb n 12 then "\f"
  else if Nat.eqb n 13 then "\r"
  else if Nat.eqb n 34 then "\" +:+ dquote
  else if Nat.eqb n 92 then "\\"
  else if Nat.ltb n 32 then
    "\u00" +:+ String (hex_digit (n / 16)) (String (hex_digit (n mod 16)) EmptyString)
  else String c EmptyString.

Fixpoint quote_chars (s : string) : string :=
  match s with
  | EmptyString => EmptyString
  | String c r => quote_char c +:+ quote_chars r
  end.

Definition QuoteJSONString (s : string) : string :=
  dquote +:+ quote_chars s +:+ dquote.

(** [Array.prototype.join(",")]. *)
Fixpoint join_comma (l : list string) : string :=
  match l with
  | [] => EmptyString
  | [x] => x
  | x :: r => x +:+ "," +:+ join_comma r
  end.

(** The own property names every object inherits from [Object.prototype]:
    [o[k]] is a function (or, for [__proto__], the prototype itself) for each
    of them, although [o] has no such own property. *)
Definition Object_prototype_names : list string :=
  [ "constructor"; "__proto__"; "hasOwnProperty"; "isPrototypeOf";
    "propertyIsEnumerable"; "toLocaleString"; "toString"; "valueOf";
    "__defineGetter__"; "__defineSetter__"; "__lookupGetter__";
    "__lookupSetter__" ].

Definition inherited (k : string) : bool :=
  existsb (String.eqb k) Object_prototype_names.

(** ** Outcomes *)

(** What evaluating a piece of the program gives: a value, or a thrown
    [Error] (a rejected promise, for an awaited call), kept by its
    [message]. *)
Inductive outcome (A : Type) : Type :=
| Returned (a : A)
| Thrown (message : string).
Arguments Returned {A} a.
Arguments Thrown {A} message.

Section Server.

(** ** The runtime's numbers

    A JavaScript number is an IEEE double; the code only passes numbers
    along, prints them and tests them, so the type and these three
    operations are parameters. *)
Variable number : Type.
(** [Number.prototype.toString()]. *)
Variable Number_toString : number -> string.
(** [Number.isFinite]. *)
Variable Number_isFinite : number -> bool.
(** [ToBoolean] of a number: false for [0], [-0] and [NaN]. *)
Variable Number_truthy : number -> bool.

(** ** Values *)

#[warnings="-register-all"]
Inductive value : Type :=
| VUndefined
| VNull
| VBool (b : bool)
| VNumber (n : number)
| VBigInt (z : Z)
| VString (s : string)
| VArray (items : list value)
| VObject (props : list (string * value)).

(** Induction over values, through the lists of an array and of an object. *)
Section value_induction.
Variable P : value -> Prop.
Hypothesis P_undefined : P VUndefined.
Hypothesis P_null : P VNull.
Hypothesis P_bool : forall b, P (VBool b).
Hypothesis P_number : forall n, P (VNumber n).
Hypothesis P_bigint : forall z, P (VBigInt z).
Hypothesis P_string : forall s, P (VString s).
Hypothesis P_array : forall items, Forall P items -> P (VArray items).
Hypothesis P_object :
  forall props, Forall (fun kv => P (snd kv)) props -> P (VObject props).

Fixpoint value_ind_nested (v : value) : P v :=
  match v with
  | VUndefined => P_undefined
  | VNull => P_null
  | VBool b => P_bool b
  | VNumber n => P_number n
  | VBigInt z => P_bigint z
  | VString s => P_string s
  | VArray items =>
      P_array items
        ((fix go (l : list value) : Forall P l :=
            match l with
            | [] => @List.Forall_nil _ P
            | x :: r => @List.Forall_cons _ P x r (value_ind_nested x) (go r)
            end) items)
  | VObject props =>
      P_object props
        ((fix go (l : list (string * value)) : Forall (fun kv => P (snd kv)) l :=
            match l with
            | [] => @List.Forall_nil _ _
            | kv :: r => @List.Forall_cons _ _ kv r (value_ind_nested (snd kv)) (go r)
            end) props)
  end.
End value_induction.

(** [ToBoolean]. *)
Definition truthy (v : value) : bool :=
  match v with
  | VUndefined | VNull => false
  | VBool b => b
  | VNumber n => Number_truthy n
  | VBigInt z => negb (Z.eqb z 0)
  | VString s => negb (String.eqb s "")
  | VArray _ | VObject _ => true
  end.

(** ** JSON.stringify and safeStringify *)

(** What [JSON.stringify] gives: a text, [undefined] (for a value that has no
    JSON form), or a thrown [TypeError]. *)
Inductive json_result : Type :=
| JText (s : string)
| JUndefined
| JThrow (message : string).

(** The text an array element or an object member contributes, [None] for
    [undefined]. *)
Definition json_member (r : json_result) : outcome (option string) :=
  match r with
  | JText s => Returned (Some s)
  | JUndefined => Returned None
  | JThrow m => Thrown m
  end.

(** The loop of ECMAScript [SerializeJSONArray]: the text of every element,
    in order, [null] standing for an element that has no JSON form. The
    element's key is the string of its index. *)
Definition SerializeJSONArray_elements
    (serialize : string -> value -> json_result)
    : nat -> list value -> outcome (list string) :=
  fix elements (i : nat) (l : list value) : outcome (list string) :=
    match l with
    | [] => Returned []
    | x :: r =>
        match json_member (serialize (index_toString i) x) with
        | Thrown m => Thrown m
        | Returned o =>
            match elements (S i) r with
            | Thrown m => Thrown m
            | Returned texts => Returned (default "null" o :: texts)
            end
        end
    end.

(** The loop of ECMAScript [SerializeJSONObject]: the member [key:text] of
    every property that has a JSON form, in order. *)
Definition SerializeJSONObject_members
    (serialize : string -> value -> json_result)
    : list (string * value) -> outcome (list string) :=
  fix members (l : list (string * value)) : outcome (list string) :=
    match l with
    | [] => Returned []
    | kv :: r =>
        match json_member (serialize (fst kv) (snd kv)) with
        | Thrown m => Thrown m
        | Returned o =>
            match members r with
            | Thrown m => Thrown m
            | Returned texts =>
                Returned
                  (match o with
                   | Some s => (QuoteJSONString (fst kv) +:+ ":" +:+ s) :: texts
                   | None => texts
                   end)
            end
        end
    end.

(** ECMAScript [SerializeJSONProperty]. The replacer function is called with
    the key and the value of every property, the root under the empty key,
    before the value is serialised; a replacer here either returns the value
    it was given ([None]) or a string that stands for it ([Some s]), which is
    all the replacer of [safeStringify] does. Without a replacer a bigint
    throws. *)
Fixpoint SerializeJSONProperty
    (replacer : string -> value -> option string) (key : string) (v : value)
    : json_result :=
  match replacer key v with
  | Some s => JText (QuoteJSONString s)
  | None =>
    match v with
    | VUndefined => JUndefined
    | VNull => JText "null"
    | VBool b => JText (if b then "true" else "false")
    | VNumber n => JText (if Number_isFinite n then Number_toString n else "null")
    | VBigInt _ => JThrow "Do not know how to serialize a BigInt"
    | VString s => JText (QuoteJSONString s)
    | VArray items =>
        match SerializeJSONArray_elements (SerializeJSONProperty replacer) 0 items with
        | Thrown m => JThrow m
        | Returned texts => JText ("[" +:+ join_comma texts +:+ "]")
        end
    | VObject props =>
        match SerializeJSONObject_members (SerializeJSONProperty replacer) props with
        | Thrown m => JThrow m
        | Returned texts => JText ("{" +:+ join_comma texts +:+ "}")
        end
    end
  end.

(** [JSON.stringify(obj)] and [JSON.stringify(obj, replacer)]. *)
Definition JSON_stringify
    (obj : value) (replacer : option (string -> value -> option string))
    : json_result :=
  SerializeJSONProperty (default (fun _ _ => None) replacer) "" obj.

(** [(_, v) => typeof v === "bigint" ? v.toString() : v] *)
Definition bigint_replacer (_key : string) (v : value) : option string :=
  match v with
  | VBigInt z => Some (BigInt_toString z)
  | _ => None
  end.

(** [export function safeStringify(obj: any)] of [helper.ts]. *)
Definition safeStringify (obj : value) : json_result :=
  JSON_stringify obj (Some bigint_replacer).

(** The value in which every bigint is replaced by the string of its decimal
    digits. *)
Fixpoint bigints_as_decimal (v : value) : value :=
  match v with
  | VBigInt z => VString (BigInt_toString z)
  | VArray items => VArray (map bigints_as_decimal items)
  | VObject props => VObject (map (fun kv => (fst kv, bigints_as_decimal (snd kv))) props)
  | _ => v
  end.

(** A bigint somewhere in the value: at the root, in an element, in a
    property. *)
Fixpoint contains_bigint (v : value) : bool :=
  match v with
  | VBigInt _ => true
  | VArray items => existsb contains_bigint items
  | VObject props => existsb (fun kv => contains_bigint (snd kv)) props
  | _ => false
  end.

(** *** JSON.stringify with indentation *)

(** The line feed, by its code. *)
Definition newline : string := String (ascii_of_nat 10) EmptyString.

(** [Array.prototype.join(separator)]. *)
Fixpoint join_with (separator : string) (l : list string) : string :=
  match l with
  | [] => EmptyString
  | [x] => x
  | x :: r => x +:+ separator +:+ join_with separator r
  end.

(** The gap of [JSON.stringify(value, replacer, space)] for a number
    [space]: that many spaces, ten at most. *)
Fixpoint spaces (n : nat) : string :=
  match n with
  | O => EmptyString
  | S n' => String " " (spaces n')
  end.

Definition gap_of_space (space : nat) : string := spaces (Nat.min 10 space).

(** The loop of [SerializeJSONObject] when there is a gap: a space follows
    the colon. *)
Definition SerializeJSONObject_members_spaced
    (serialize : string -> value -> json_result)
    : list (string * value) -> outcome (list string) :=
  fix members (l : list (string * value)) : outcome (list string) :=
    match l with
    | [] => Returned []
    | kv :: r =>
        match json_member (serialize (fst kv) (snd kv)) with
        | Thrown m => Thrown m
        | Returned o =>
            match members r with
            | Thrown m => Thrown m
            | Returned texts =>
                Returned
                  (match o with
                   | Some s => (QuoteJSONString (fst kv) +:+ ": " +:+ s) :: texts
                   | None => texts
                   end)
            end
        end
    end.

(** The text of an array or of an object from the texts of its parts, as
    [SerializeJSONArray] and [SerializeJSONObject] end: the two brackets
    alone when there is no part; otherwise every part on a line of its own,
    indented by [indent], the closing bracket on its line, indented by
    [stepback]. *)
Definition json_block (opening closing stepback indent : string) (texts : list string)
    : string :=
  match texts with
  | [] => opening +:+ closing
  | _ =>
      opening +:+ newline +:+ indent
      +:+ join_with ("," +:+ newline +:+ indent) texts
      +:+ newline +:+ stepback +:+ closing
  end.

(** ECMAScript [SerializeJSONProperty] with a non-empty gap and no replacer
    function; [indent] is the current indentation. *)
Fixpoint SerializeJSONProperty_spaced (gap indent : string) (key : string) (v : value)
    : json_result :=
  match v with
  | VUndefined => JUndefined
  | VNull => JText "null"
  | VBool b => JText (if b then "true" else "false")
  | VNumber n => JText (if Number_isFinite n then Number_toString n else "null")
  | VBigInt _ => JThrow "Do not know how to serialize a BigInt"
  | VString s => JText (QuoteJSONString s)
  | VArray items =>
      match
        SerializeJSONArray_elements
          (SerializeJSONProperty_spaced gap (indent +:+ gap)) 0 items
      with
      | Thrown m => JThrow m
      | Returned texts => JText (json_block "[" "]" indent (indent +:+ gap) texts)
      end
  | VObject props =>
      match
        SerializeJSONObject_members_spaced
          (SerializeJSONProperty_spaced gap (indent +:+ gap)) props
      with
      | Thrown m => JThrow m
      | Returned texts => JText (json_block "{" "}" indent (indent +:+ gap) texts)
      end
  end.

(** [JSON.stringify(obj, null, space)] for a number [space]: without a gap
    it is [JSON.stringify(obj)]. *)
Definition JSON_stringify_space (obj : value) (space : nat) : json_result :=
  if String.eqb (gap_of_space space) "" then JSON_stringify obj None
  else SerializeJSONProperty_spaced (gap_of_space space) "" "" obj.

(** ** The process-wide state and the handlers' monad *)

(** Objects of the remote service, by their properties. *)
Definition JsObject : Type := list (string * value).

(** One entry of the [NodeCache] instance [_cache]: the value and the time,
    in milliseconds, at which it expires ([0]: never). *)
Record cache_entry : Type := CacheEntry {
  entry_value : value;
  entry_expiry : N
}.

(** A call made to the remote service, with its arguments. *)
Inductive remote_call : Type :=
| Call_getQuote (params : JsObject)
| Call_getChains
| Call_getTokens (params : JsObject)
| Call_getToken (chain : value) (token : string)
| Call_getTools (chains : option (list string))
| Call_fetch (url : string) (headers : list (string * string))
| Call_getConnections (params : JsObject)
| Call_getTokenBalance (walletAddress : string) (token : JsObject)
| Call_getTokenBalances (walletAddress : string) (tokens : option (list value))
| Call_getTokenAllowance (token : JsObject) (ownerAddress spenderAddress : string)
| Call_getTokenAllowanceMulticall (ownerAddress : string) (tokens : list (JsObject * string))
| Call_getStatus (params : JsObject)
| Call_getRoutes (params : JsObject).

(** The state shared by every handler: the cache, the clock ([Date.now()],
    in milliseconds) and the calls made to the remote service so far, oldest
    first. *)
Record world : Type := World {
  cache : gmap string cache_entry;
  clock : N;
  calls : list remote_call
}.

(** A computation of a handler: from a state, a value or a thrown error, and
    the state it leaves. *)
Definition M (A : Type) : Type := world -> outcome A * world.

Definition ret {A : Type} (a : A) : M A := fun w => (Returned a, w).

Definition throw {A : Type} (message : string) : M A := fun w => (Thrown message, w).

Definition bind {A B : Type} (m : M A) (k : A -> M B) : M B :=
  fun w =>
    match m w with
    | (Returned a, w') => k a w'
    | (Thrown e, w') => (Thrown e, w')
    end.

Notation "'let*' x := m 'in' k" := (bind m (fun x => k))
  (at level 10, x name, m at level 100, k at level 200, only parsing).

(** [try { body } catch (error) { handler(error.message) }]: whatever the
    body did to the state before it threw stays done. *)
Definition try_catch {A : Type} (body : M A) (handler : string -> M A) : M A :=
  fun w =>
    match body w with
    | (Returned a, w') => (Returned a, w')
    | (Thrown e, w') => handler e w'
    end.

(** Lifting an outcome that needs no state. *)
Definition lift {A : Type} (o : outcome A) : M A := fun w => (o, w).

(** ** NodeCache

    The [node-cache] package with its default options, as the code uses it:
    [get] gives the stored value unless the entry is missing or its expiry
    lies before now (the entry is then deleted and [undefined] returned);
    [set] stores the value with expiry now + ttl seconds, or no expiry for a
    ttl of [0]. *)
Definition expired (now : N) (e : cache_entry) : bool :=
  negb (N.eqb (entry_expiry e) 0) && N.ltb (entry_expiry e) now.

Definition NodeCache_get (key : string) : M value :=
  fun w =>
    match cache w !! key with
    | Some e =>
        if expired (clock w) e
        then (Returned VUndefined, World (delete key (cache w)) (clock w) (calls w))
        else (Returned (entry_value e), w)
    | None => (Returned VUndefined, w)
    end.

Definition NodeCache_set (key : string) (v : value) (ttl : N) : M unit :=
  fun w =>
    let expiry := if N.eqb ttl 0 then 0%N else (clock w + ttl * 1000)%N in
    (Returned tt, World (<[key := CacheEntry v expiry]> (cache w)) (clock w) (calls w)).

(** [const cacheTTL = 60 * 60 * 24] *)
Definition cacheTTL : N := 60 * 60 * 24.
Definition lifiIntegrator : string := "helixbox-mcp".
Definition lifiProtocol : string := "LI.FI".

(** ** The remote service *)

(** [TokensResponse] of the SDK: [tokens] maps a chain id to the tokens of
    that chain ([{ [chainId: number]: Token[] }]); the property names of the
    object are the decimal strings of the chain ids, in the order the object
    enumerates them. *)
Record TokensResponse : Type := { tokens : list (N * list value) }.

(** A [fetch] response: [ok], [status], and what awaiting [text()] and
    [json()] gives. *)
Record Response : Type := {
  response_ok : bool;
  response_status : number;
  response_text : outcome string;
  response_json : outcome value
}.

(** The SDK functions and [fetch]. Each answer may depend on how many calls
    were made before it (the first argument), so the service may change its
    mind between two identical calls; an answer is a value or a rejection.
    [latency] is the time, in milliseconds, the n-th call takes. *)
Record Sdk : Type := {
  getQuote : nat -> JsObject -> outcome value;
  getChains : nat -> outcome (list value);
  getTokens : nat -> JsObject -> outcome TokensResponse;
  getToken : nat -> value -> string -> outcome JsObject;
  getTools : nat -> option (list string) -> outcome value;
  fetch : nat -> string -> list (string * string) -> outcome Response;
  getConnections : nat -> JsObject -> outcome value;
  getTokenBalance : nat -> string -> JsObject -> outcome (option JsObject);
  getTokenBalances : nat -> string -> option (list value) -> outcome (list JsObject);
  getTokenAllowance : nat -> JsObject -> string -> string -> outcome (option Z);
  getTokenAllowanceMulticall : nat -> string -> list (JsObject * string) -> outcome value;
  getStatus : nat -> JsObject -> outcome value;
  getRoutes : nat -> JsObject -> outcome value;
  latency : nat -> N
}.

Variable sdk : Sdk.
(** [JSON.parse]. *)
Variable JSON_parse : string -> outcome value.
(** [new URLSearchParams(entries).toString()]. *)
Variable URLSearchParams_toString : list (string * string) -> string.
(** [process.env.LIFIPRO_API_KEY]. *)
Variable LIFIPRO_API_KEY : option string.

(** [await f(args)]: the call is logged, the clock advances by its latency,
    and the service's answer to this call is the outcome. *)
Definition await {A : Type} (c : remote_call) (answer : nat -> outcome A) : M A :=
  fun w =>
    let n := length (calls w) in
    (answer n, World (cache w) (clock w + latency sdk n) (calls w ++ [c])%list).

(** [await Promise.all(calls)], every call started at once, in order: all
    are logged, the clock advances by the longest latency, and the outcome is
    the list of answers, or a rejection when some call rejects (of several
    rejections the model keeps that of the earliest call). *)
Fixpoint all_answers {A : Type} (n : nat) (answers : list (nat -> outcome A))
    : outcome (list A) :=
  match answers with
  | [] => Returned []
  | answer :: rest =>
      match answer n with
      | Thrown e => Thrown e
      | Returned a =>
          match all_answers (S n) rest with
          | Thrown e => Thrown e
          | Returned l => Returned (a :: l)
          end
      end
  end.

Fixpoint longest_latency (n count : nat) : N :=
  match count with
  | O => 0%N
  | S count' => N.max (latency sdk n) (longest_latency (S n) count')
  end.

Definition await_all {A : Type} (started : list (remote_call * (nat -> outcome A)))
    : M (list A) :=
  fun w =>
    let n := length (calls w) in
    (all_answers n (map snd started),
     World (cache w) (clock w + longest_latency n (length started))
       (calls w ++ map fst started)%list).

(** ** Tool handlers *)

(** What a tool handler returns: [{ content: [{ type: "text", text }] }] or
    [{ structuredContent: { ... } }]. The text is [undefined] when
    [safeStringify] is given [undefined]. *)
Inductive tool_result : Type :=
| Content (text : option string)
| StructuredContent (fields : JsObject).

(** The [text] property computed by [safeStringify(v)]. *)
Definition text_of (r : json_result) : M (option string) :=
  match r with
  | JText s => ret (Some s)
  | JUndefined => ret None
  | JThrow m => throw m
  end.

(** The text of a result that did not throw. *)
Definition json_text (r : json_result) : option string :=
  match r with
  | JText s => Some s
  | _ => None
  end.

(** [JSON.parse(safeStringify(v))]; [JSON.parse] reads its argument as a
    string. *)
Definition parse_of (r : json_result) : M value :=
  match r with
  | JText s => lift (JSON_parse s)
  | JUndefined => lift (JSON_parse "undefined")
  | JThrow m => throw m
  end.

Definition opt_number (o : option number) : value :=
  match o with Some n => VNumber n | None => VUndefined end.

Definition opt_string (o : option string) : value :=
  match o with Some s => VString s | None => VUndefined end.

(** [ToBoolean] of an optional string argument. *)
Definition string_truthy (o : option string) : bool :=
  match o with Some s => negb (String.eqb s "") | None => false end.

(** [chain || d] *)
Definition or_else (chain : option string) (d : string) : string :=
  match chain with
  | Some s => if String.eqb s "" then d else s
  | None => d
  end.

(** The property name an optional string indexes an object by. *)
Definition property_key (chain : option string) : string :=
  match chain with Some s => s | None => "undefined" end.

Definition N_toString (n : N) : string := BigInt_toString (Z.of_N n).

(** [tokens.tokens[key]]: the own property of that name, if any. *)
Definition tokens_get (key : string) (r : TokensResponse) : option (list value) :=
  match find (fun entry => String.eqb (N_toString (fst entry)) key) (tokens r) with
  | Some entry => Some (snd entry)
  | None => None
  end.

(** [tokens.tokens[key].slice(0, 25)]: a [TypeError] when the property is
    missing, or is one of the functions inherited from [Object.prototype]. *)
Definition tokens_slice (key : string) (r : TokensResponse) : M value :=
  match tokens_get key r with
  | Some l => ret (VArray (firstn 25 l))
  | None =>
      throw (if inherited key
             then "tokens.tokens[chain].slice is not a function"
             else "Cannot read properties of undefined (reading 'slice')")
  end.

(** The response as the object it is. *)
Definition TokensResponse_value (r : TokensResponse) : value :=
  VObject
    [("tokens",
      VObject (map (fun entry => (N_toString (fst entry), VArray (snd entry))) (tokens r)))].

(** [o[key]] on an object of the remote service. *)
Definition get_property (key : string) (o : JsObject) : value :=
  match find (fun kv => String.eqb (fst kv) key) o with
  | Some kv => snd kv
  | None => VUndefined
  end.

(** [balance.amount > 0] for a [TokenAmount], whose [amount] is a bigint or
    absent. *)
Definition amount_positive (balance : JsObject) : bool :=
  match get_property "amount" balance with
  | VBigInt z => Z.ltb 0 z
  | _ => false
  end.

Definition quote_params (fromChain toChain : number)
    (fromToken toToken : string) (amountKey amount fromAddress : string)
    (slippage : option number) : JsObject :=
  [ ("fromChain", VNumber fromChain); ("toChain", VNumber toChain);
    ("fromToken", VString fromToken); ("toToken", VString toToken);
    (amountKey, VString amount); ("fromAddress", VString fromAddress);
    ("slippage", opt_number slippage) ].

Definition lifi_headers : list (string * string) :=
  [ ("x-lifi-sdk-integrator", lifiIntegrator);
    ("x-api-key", or_else LIFIPRO_API_KEY "") ].

(** [if (!res.ok) throw new Error(`HTTP ${res.status}: ${await res.text()}`)] *)
Definition check_ok (res : Response) : M unit :=
  if response_ok res then ret tt
  else
    let* body := lift (response_text res) in
    throw ("HTTP " +:+ Number_toString (response_status res) +:+ ": " +:+ body).

(** The shape shared by the handlers that answer with a text: in the [try]
    block the value the body computed is stringified; the [catch] block
    returns the text [prefix: error.message]. *)
Definition text_try (body : M value) : M tool_result :=
  let* data := body in
  let* text := text_of (safeStringify data) in
  ret (Content text).

Definition text_catch (prefix message : string) : tool_result :=
  Content (Some (prefix +:+ ": " +:+ message)).

Definition text_tool (prefix : string) (body : M value) : M tool_result :=
  try_catch (text_try body) (fun message => ret (text_catch prefix message)).

(** [swap] and [bridge] *)
Definition quote_try (params request : JsObject) : M tool_result :=
  let* quote := await (Call_getQuote request) (fun n => getQuote sdk n request) in
  ret (StructuredContent
         [ ("params", VObject params); ("protocol", VString lifiProtocol);
           ("quote", quote) ]).

Definition quote_catch (prefix : string) (params : JsObject) (message : string)
    : tool_result :=
  StructuredContent
    [ ("params", VObject params); ("protocol", VString lifiProtocol);
      ("error", VString (prefix +:+ ": " +:+ message)) ].

Definition swap_handler (fromChain toChain : number)
    (fromToken toToken fromAmount fromAddress : string) (slippage : option number)
    : M tool_result :=
  let params :=
    quote_params fromChain toChain fromToken toToken "fromAmount" fromAmount
      fromAddress slippage in
  try_catch (quote_try params params)
    (fun message => ret (quote_catch "Failed to get swap quote" params message)).

Definition bridge_request (params : JsObject) : JsObject :=
  (params ++ [ ("allowBridges", VArray [VString "all"]); ("allowExchanges", VArray []) ])%list.

Definition bridge_handler (fromChain toChain : number)
    (fromToken toToken fromAmount fromAddress : string) (slippage : option number)
    : M tool_result :=
  let params :=
    quote_params fromChain toChain fromToken toToken "fromAmount" fromAmount
      fromAddress slippage in
  try_catch (quote_try params (bridge_request params))
    (fun message => ret (quote_catch "Failed to get bridge quote" params message)).

(** [chains] *)
Definition chains_body : M value :=
  let* cached := NodeCache_get "chains" in
  if truthy cached then ret cached
  else
    let* chains := await Call_getChains (getChains sdk) in
    let* _ := NodeCache_set "chains" (VArray chains) cacheTTL in
    ret (VArray chains).

Definition chains_handler : M tool_result :=
  text_tool "Failed to get chains" chains_body.

(** [tokens-one-chain] *)
Definition tokens_one_chain_key (chain : option string) : string :=
  "tokens-" +:+ or_else chain "all".

(** [{ chains: chain ? [chain] : undefined, chainTypes: [ChainType.EVM] }] *)
Definition tokens_one_chain_request (chain : option string) : JsObject :=
  [ ("chains", if string_truthy chain then VArray [opt_string chain] else VUndefined);
    ("chainTypes", VArray [VString "EVM"]) ].

Definition tokens_one_chain_body (chain : option string) : M value :=
  let* cached := NodeCache_get (tokens_one_chain_key chain) in
  if truthy cached then ret cached
  else
    let* tokens :=
      await (Call_getTokens (tokens_one_chain_request chain))
        (fun n => getTokens sdk n (tokens_one_chain_request chain)) in
    let* lessTokens := tokens_slice (property_key chain) tokens in
    let* _ := NodeCache_set (tokens_one_chain_key chain) lessTokens (60 * 5) in
    ret lessTokens.

Definition tokens_one_chain_handler (chain : option string) : M tool_result :=
  text_tool "Failed to get tokens" (tokens_one_chain_body chain).

(** [tokens-multiple-chains] *)
Definition truncate_tokens (r : TokensResponse) : TokensResponse :=
  {| tokens := map (fun entry => (fst entry, firstn 25 (snd entry))) (tokens r) |}.

(** [{ chains: chains ? chains : undefined, chainTypes: [ChainType.EVM] }];
    an array is truthy, the empty one too. *)
Definition tokens_multiple_chains_request (chains : option (list string)) : JsObject :=
  [ ("chains", match chains with
               | Some l => VArray (map VString l)
               | None => VUndefined
               end);
    ("chainTypes", VArray [VString "EVM"]) ].

Definition tokens_multiple_chains_body (chains : option (list string)) : M value :=
  let request := tokens_multiple_chains_request chains in
  let* tokens := await (Call_getTokens request) (fun n => getTokens sdk n request) in
  ret (TokensResponse_value (truncate_tokens tokens)).

Definition tokens_multiple_chains_handler (chains : option (list string))
    : M tool_result :=
  text_tool "Failed to get tokens" (tokens_multiple_chains_body chains).

(** [token] *)
Definition token_key (chain token : string) : string :=
  "token-" +:+ chain +:+ "-" +:+ token.

Definition token_body (chain token : string) : M value :=
  let* cached := NodeCache_get (token_key chain token) in
  if truthy cached then ret cached
  else
    let* tokenInfo :=
      await (Call_getToken (VString chain) token)
        (fun n => getToken sdk n (VString chain) token) in
    let* _ := NodeCache_set (token_key chain token) (VObject tokenInfo) cacheTTL in
    ret (VObject tokenInfo).

Definition token_handler (chain token : string) : M tool_result :=
  text_tool "Failed to get token info" (token_body chain token).

(** [tools] *)
Definition tools_body (chains : option (list string)) : M value :=
  await (Call_getTools chains) (fun n => getTools sdk n chains).

Definition tools_handler (chains : option (list string)) : M tool_result :=
  text_tool "Failed to get tools" (tools_body chains).

(** [quote-to-amount] *)
Definition quote_to_amount_body (fromChain toChain : number)
    (fromToken toToken toAmount fromAddress : string) (slippage : option number)
    : M value :=
  let params :=
    ([ ("fromChain", Number_toString fromChain); ("toChain", Number_toString toChain);
       ("fromToken", fromToken); ("toToken", toToken); ("toAmount", toAmount);
       ("fromAddress", fromAddress) ]
     ++ match slippage with
        | Some s => [("slippage", Number_toString s)]
        | None => []
        end)%list in
  let url := "https://li.quest/v1/quote/toAmount?" +:+ URLSearchParams_toString params in
  let* res := await (Call_fetch url lifi_headers) (fun n => fetch sdk n url lifi_headers) in
  let* _ := check_ok res in
  lift (response_json res).

Definition quote_to_amount_handler (fromChain toChain : number)
    (fromToken toToken toAmount fromAddress : string) (slippage : option number)
    : M tool_result :=
  text_tool "Failed to get quote by toAmount"
    (quote_to_amount_body fromChain toChain fromToken toToken toAmount fromAddress
       slippage).

(** [connections] *)
Definition connections_body (fromChain : option number) (fromToken : option string)
    (toChain : option number) (toToken : option string) : M value :=
  let params :=
    [ ("fromChain", opt_number fromChain); ("fromToken", opt_string fromToken);
      ("toChain", opt_number toChain); ("toToken", opt_string toToken) ] in
  await (Call_getConnections params) (fun n => getConnections sdk n params).

Definition connections_handler (fromChain : option number) (fromToken : option string)
    (toChain : option number) (toToken : option string) : M tool_result :=
  text_tool "Failed to get connections"
    (connections_body fromChain fromToken toChain toToken).

(** The [catch] block of [token-balance] and [token-balances]. *)
Definition error_catch (prefix message : string) : tool_result :=
  StructuredContent [("error", VString (prefix +:+ ": " +:+ message))].

(** [token-balance] *)
Definition token_balance_try (walletAddress : string) (chainId : number)
    (token : string) : M tool_result :=
  let* tokenObj :=
    await (Call_getToken (VNumber chainId) token)
      (fun n => getToken sdk n (VNumber chainId) token) in
  let* balance :=
    await (Call_getTokenBalance walletAddress tokenObj)
      (fun n => getTokenBalance sdk n walletAddress tokenObj) in
  let* balance :=
    parse_of (safeStringify
                (match balance with Some o => VObject o | None => VNull end)) in
  ret (StructuredContent [("balance", balance)]).

Definition token_balance_handler (walletAddress : string) (chainId : number)
    (token : string) : M tool_result :=
  try_catch (token_balance_try walletAddress chainId token)
    (fun message => ret (error_catch "Failed to get token balance" message)).

(** [token-balances] *)
Definition token_balances_try (walletAddress : string) (chainId : number)
    : M tool_result :=
  let request := [("chains", VArray [VNumber chainId])] in
  let* tokens := await (Call_getTokens request) (fun n => getTokens sdk n request) in
  let listed := tokens_get (Number_toString chainId) tokens in
  let* balances :=
    await (Call_getTokenBalances walletAddress listed)
      (fun n => getTokenBalances sdk n walletAddress listed) in
  let balances := List.filter amount_positive balances in
  let* balances := parse_of (safeStringify (VArray (map VObject balances))) in
  ret (StructuredContent [("balances", balances)]).

Definition token_balances_handler (walletAddress : string) (chainId : number)
    : M tool_result :=
  try_catch (token_balances_try walletAddress chainId)
    (fun message => ret (error_catch "Failed to get token balances" message)).

(** [token-allowance] *)
Definition token_allowance_body (token_address : string) (token_chainId : number)
    (ownerAddress spenderAddress : string) : M value :=
  let* tokenObj :=
    await (Call_getToken (VNumber token_chainId) token_address)
      (fun n => getToken sdk n (VNumber token_chainId) token_address) in
  let* allowance :=
    await (Call_getTokenAllowance tokenObj ownerAddress spenderAddress)
      (fun n => getTokenAllowance sdk n tokenObj ownerAddress spenderAddress) in
  ret (match allowance with Some z => VBigInt z | None => VUndefined end).

Definition token_allowance_handler (token_address : string) (token_chainId : number)
    (ownerAddress spenderAddress : string) : M tool_result :=
  text_tool "Failed to get token allowance"
    (token_allowance_body token_address token_chainId ownerAddress spenderAddress).

(** [token-allowance-multicall]; an element of [tokens] is
    [{ token: { address, chainId }, spenderAddress }]. *)
Definition token_allowance_multicall_body (ownerAddress : string)
    (tokens : list (string * number * string)) : M value :=
  let* tokenObjs :=
    await_all
      (map (fun t =>
              (Call_getToken (VNumber (snd (fst t))) (fst (fst t)),
               fun n => getToken sdk n (VNumber (snd (fst t))) (fst (fst t))))
           tokens) in
  let tokensWithSpender :=
    map (fun p => (fst p, snd (snd p))) (combine tokenObjs tokens) in
  await (Call_getTokenAllowanceMulticall ownerAddress tokensWithSpender)
    (fun n => getTokenAllowanceMulticall sdk n ownerAddress tokensWithSpender).

Definition token_allowance_multicall_handler (ownerAddress : string)
    (tokens : list (string * number * string)) : M tool_result :=
  text_tool "Failed to get token allowance multicall"
    (token_allowance_multicall_body ownerAddress tokens).

(** [routes] *)
Definition routes_body (fromChainId toChainId : number)
    (fromTokenAddress toTokenAddress fromAmount : string) (fromAddress : option string)
    : M value :=
  let params :=
    ([ ("fromChainId", VNumber fromChainId); ("toChainId", VNumber toChainId);
       ("fromTokenAddress", VString fromTokenAddress);
       ("toTokenAddress", VString toTokenAddress);
       ("fromAmount", VString fromAmount) ]
     ++ (if string_truthy fromAddress
         then [("fromAddress", opt_string fromAddress)] else []))%list in
  await (Call_getRoutes params) (fun n => getRoutes sdk n params).

Definition routes_handler (fromChainId toChainId : number)
    (fromTokenAddress toTokenAddress fromAmount : string) (fromAddress : option string)
    : M tool_result :=
  text_tool "Failed to get routes"
    (routes_body fromChainId toChainId fromTokenAddress toTokenAddress fromAmount
       fromAddress).

(** [status] *)
Definition status_body (txHash : string) (bridge : option string)
    (fromChain toChain : option number) : M value :=
  let params :=
    [ ("txHash", VString txHash); ("bridge", opt_string bridge);
      ("fromChain", opt_number fromChain); ("toChain", opt_number toChain) ] in
  await (Call_getStatus params) (fun n => getStatus sdk n params).

Definition status_handler (txHash : string) (bridge : option string)
    (fromChain toChain : option number) : M tool_result :=
  text_tool "Failed to get status" (status_body txHash bridge fromChain toChain).

(** [gas-price] and [gas-prices] *)
Definition gas_body (url : string) : M value :=
  let* res := await (Call_fetch url lifi_headers) (fun n => fetch sdk n url lifi_headers) in
  let* _ := check_ok res in
  lift (response_json res).

Definition gas_price_url (chainId : number) : string :=
  "https://li.quest/v1/gas/prices/" +:+ Number_toString chainId.

Definition gas_price_handler (chainId : number) : M tool_result :=
  text_tool "Failed to get gas price" (gas_body (gas_price_url chainId)).

Definition gas_prices_handler : M tool_result :=
  text_tool "Failed to get gas prices" (gas_body "https://li.quest/v1/gas/prices").

(** A tool invocation: the tool's name with its validated arguments. *)
Inductive tool_call : Type :=
| Swap (fromChain toChain : number)
    (fromToken toToken fromAmount fromAddress : string) (slippage : option number)
| Bridge (fromChain toChain : number)
    (fromToken toToken fromAmount fromAddress : string) (slippage : option number)
| Chains
| TokensOneChain (chain : option string)
| TokensMultipleChains (chains : option (list string))
| Token (chain token : string)
| Tools (chains : option (list string))
| QuoteToAmount (fromChain toChain : number)
    (fromToken toToken toAmount fromAddress : string) (slippage : option number)
| Connections (fromChain : option number) (fromToken : option string)
    (toChain : option number) (toToken : option string)
| TokenBalance (walletAddress : string) (chainId : number) (token : string)
| TokenBalances (walletAddress : string) (chainId : number)
| TokenAllowance (token_address : string) (token_chainId : number)
    (ownerAddress spenderAddress : string)
| TokenAllowanceMulticall (ownerAddress : string)
    (tokens : list (string * number * string))
| Routes (fromChainId toChainId : number)
    (fromTokenAddress toTokenAddress fromAmount : string) (fromAddress : option string)
| Status (txHash : string) (bridge : option string) (fromChain toChain : option number)
| GasPrice (chainId : number)
| GasPrices.

(** The handler the server registered under the tool's name. *)
Definition invoke (t : tool_call) : M tool_result :=
  match t with
  | Swap a b c d e f g => swap_handler a b c d e f g
  | Bridge a b c d e f g => bridge_handler a b c d e f g
  | Chains => chains_handler
  | TokensOneChain chain => tokens_one_chain_handler chain
  | TokensMultipleChains chains => tokens_multiple_chains_handler chains
  | Token chain token => token_handler chain token
  | Tools chains => tools_handler chains
  | QuoteToAmount a b c d e f g => quote_to_amount_handler a b c d e f g
  | Connections a b c d => connections_handler a b c d
  | TokenBalance a b c => token_balance_handler a b c
  | TokenBalances a b => token_balances_handler a b
  | TokenAllowance a b c d => token_allowance_handler a b c d
  | TokenAllowanceMulticall a b => token_allowance_multicall_handler a b
  | Routes a b c d e f => routes_handler a b c d e f
  | Status a b c d => status_handler a b c d
  | GasPrice chainId => gas_price_handler chainId
  | GasPrices => gas_prices_handler
  end.


(** The words its [catch] block puts before [error.message]. *)
Definition failure_prefix (t : tool_call) : string :=
  match t with
  | Swap _ _ _ _ _ _ _ => "Failed to get swap quote"
  | Bridge _ _ _ _ _ _ _ => "Failed to get bridge quote"
  | Chains => "Failed to get chains"
  | TokensOneChain _ | TokensMultipleChains _ => "Failed to get tokens"
  | Token _ _ => "Failed to get token info"
  | Tools _ => "Failed to get tools"
  | QuoteToAmount _ _ _ _ _ _ _ => "Failed to get quote by toAmount"
  | Connections _ _ _ _ => "Failed to get connections"
  | TokenBalance _ _ _ => "Failed to get token balance"
  | TokenBalances _ _ => "Failed to get token balances"
  | TokenAllowance _ _ _ _ => "Failed to get token allowance"
  | TokenAllowanceMulticall _ _ => "Failed to get token allowance multicall"
  | Routes _ _ _ _ _ _ => "Failed to get routes"
  | Status _ _ _ _ => "Failed to get status"
  | GasPrice _ => "Failed to get gas price"
  | GasPrices => "Failed to get gas prices"
  end.



(** The tools that read live state: balances, allowances, the status of a
    transaction, gas prices. *)
Definition live_state (t : tool_call) : bool :=
  match t with
  | TokenBalance _ _ _ | TokenBalances _ _ | TokenAllowance _ _ _ _
  | TokenAllowanceMulticall _ _ | Status _ _ _ _ | GasPrice _ | GasPrices => true
  | _ => false
  end.

(** The first call to the remote service each of them makes. *)
Definition first_call (t : tool_call) : option remote_call :=
  match t with
  | TokenBalance _ chainId token => Some (Call_getToken (VNumber chainId) token)
  | TokenBalances _ chainId =>
      Some (Call_getTokens [("chains", VArray [VNumber chainId])])
  | TokenAllowance address chainId _ _ => Some (Call_getToken (VNumber chainId) address)
  | TokenAllowanceMulticall ownerAddress [] =>
      Some (Call_getTokenAllowanceMulticall ownerAddress [])
  | TokenAllowanceMulticall _ (t :: _) =>
      Some (Call_getToken (VNumber (snd (fst t))) (fst (fst t)))
  | Status txHash bridge fromChain toChain =>
      Some (Call_getStatus
              [ ("txHash", VString txHash); ("bridge", opt_string bridge);
                ("fromChain", opt_number fromChain); ("toChain", opt_number toChain) ])
  | GasPrice chainId => Some (Call_fetch (gas_price_url chainId) lifi_headers)
  | GasPrices => Some (Call_fetch "https://li.quest/v1/gas/prices" lifi_headers)
  | _ => None
  end.

(** ** The stdio server

    The server over standard input and output, with the tools it registers
    under the names [swap], [bridge], [chains], [token], [quoteToAmount],
    [connections], [tokenBalance], [tokenBalances], [tokenAllowance],
    [tokenAllowanceMulticall], [routes], [status], [gasPrice] and
    [gasPrices] (its first version has the first four, and the fifth under
    the name [get-quote-to-amount], with the same handlers). There is no
    cache, and every handler answers with a text:
    [JSON.stringify(data, null, 2)] in its [try] block, [prefix:
    error.message] in its [catch] block. Its tools [tokens] and [tools] are
    left out: they pass lists of chain keys and chain ids, or no argument
    at all, which the calls of the HTTP server modelled above do not. *)

Definition stdio_try (body : M value) : M tool_result :=
  let* data := body in
  let* text := text_of (JSON_stringify_space data 2) in
  ret (Content text).

Definition stdio_tool (prefix : string) (body : M value) : M tool_result :=
  try_catch (stdio_try body) (fun message => ret (text_catch prefix message)).

(** [swap] and [bridge] *)
Definition stdio_quote_body (request : JsObject) : M value :=
  await (Call_getQuote request) (fun n => getQuote sdk n request).

(** [chains] *)
Definition stdio_chains_body : M value :=
  let* chains := await Call_getChains (getChains sdk) in
  ret (VArray chains).

(** [token]; the chain is a string or a number. *)
Definition chain_value (chain : string + number) : value :=
  match chain with
  | inl key => VString key
  | inr chainId => VNumber chainId
  end.

Definition stdio_token_body (chain : string + number) (token : string) : M value :=
  let* tokenInfo :=
    await (Call_getToken (chain_value chain) token)
      (fun n => getToken sdk n (chain_value chain) token) in
  ret (VObject tokenInfo).

(** [tokenBalance] *)
Definition stdio_token_balance_body (walletAddress : string) (chainId : number)
    (token : string) : M value :=
  let* tokenObj :=
    await (Call_getToken (VNumber chainId) token)
      (fun n => getToken sdk n (VNumber chainId) token) in
  let* balance :=
    await (Call_getTokenBalance walletAddress tokenObj)
      (fun n => getTokenBalance sdk n walletAddress tokenObj) in
  ret (match balance with Some o => VObject o | None => VNull end).

(** [tokenBalances] *)
Definition stdio_token_balances_body (walletAddress : string) (chainId : number)
    : M value :=
  let request := [("chains", VArray [VNumber chainId])] in
  let* tokens := await (Call_getTokens request) (fun n => getTokens sdk n request) in
  let listed := tokens_get (Number_toString chainId) tokens in
  let* balances :=
    await (Call_getTokenBalances walletAddress listed)
      (fun n => getTokenBalances sdk n walletAddress listed) in
  ret (VArray (map VObject balances)).

(** An invocation of a tool of the stdio server. *)
Inductive stdio_call : Type :=
| StdioSwap (fromChain toChain : number)
    (fromToken toToken fromAmount fromAddress : string) (slippage : option number)
| StdioBridge (fromChain toChain : number)
    (fromToken toToken fromAmount fromAddress : string) (slippage : option number)
| StdioChains
| StdioToken (chain : string + number) (token : string)
| StdioQuoteToAmount (fromChain toChain : number)
    (fromToken toToken toAmount fromAddress : string) (slippage : option number)
| StdioConnections (fromChain : option number) (fromToken : option string)
    (toChain : option number) (toToken : option string)
| StdioTokenBalance (walletAddress : string) (chainId : number) (token : string)
| StdioTokenBalances (walletAddress : string) (chainId : number)
| StdioTokenAllowance (token_address : string) (token_chainId : number)
    (ownerAddress spenderAddress : string)
| StdioTokenAllowanceMulticall (ownerAddress : string)
    (tokens : list (string * number * string))
| StdioRoutes (fromChainId toChainId : number)
    (fromTokenAddress toTokenAddress fromAmount : string) (fromAddress : option string)
| StdioStatus (txHash : string) (bridge : option string) (fromChain toChain : option number)
| StdioGasPrice (chainId : number)
| StdioGasPrices.

(** What the [try] block of its handler awaits before it serialises. *)
Definition stdio_body (t : stdio_call) : M value :=
  match t with
  | StdioSwap a b c d e f g =>
      stdio_quote_body (quote_params a b c d "fromAmount" e f g)
  | StdioBridge a b c d e f g =>
      stdio_quote_body (bridge_request (quote_params a b c d "fromAmount" e f g))
  | StdioChains => stdio_chains_body
  | StdioToken chain token => stdio_token_body chain token
  | StdioQuoteToAmount a b c d e f g => quote_to_amount_body a b c d e f g
  | StdioConnections a b c d => connections_body a b c d
  | StdioTokenBalance a b c => stdio_token_balance_body a b c
  | StdioTokenBalances a b => stdio_token_balances_body a b
  | StdioTokenAllowance a b c d => token_allowance_body a b c d
  | StdioTokenAllowanceMulticall a b => token_allowance_multicall_body a b
  | StdioRoutes a b c d e f => routes_body a b c d e f
  | StdioStatus a b c d => status_body a b c d
  | StdioGasPrice chainId => gas_body (gas_price_url chainId)
  | StdioGasPrices => gas_body "https://li.quest/v1/gas/prices"
  end.

(** The words its [catch] block puts before [error.message]. *)
Definition stdio_prefix (t : stdio_call) : string :=
  match t with
  | StdioSwap _ _ _ _ _ _ _ => "Failed to get swap quote"
  | StdioBridge _ _ _ _ _ _ _ => "Failed to get bridge quote"
  | StdioChains => "Failed to get chains"
  | StdioToken _ _ => "Failed to get token info"
  | StdioQuoteToAmount _ _ _ _ _ _ _ => "Failed to get quote by toAmount"
  | StdioConnections _ _ _ _ => "Failed to get connections"
  | StdioTokenBalance _ _ _ => "Failed to get token balance"
  | StdioTokenBalances _ _ => "Failed to get token balances"
  | StdioTokenAllowance _ _ _ _ => "Failed to get token allowance"
  | StdioTokenAllowanceMulticall _ _ => "Failed to get token allowance multicall"
  | StdioRoutes _ _ _ _ _ _ => "Failed to get routes"
  | StdioStatus _ _ _ _ => "Failed to get status"
  | StdioGasPrice _ => "Failed to get gas price"
  | StdioGasPrices => "Failed to get gas prices"
  end.

(** The handler the stdio server registered under the tool's name. *)
Definition stdio_invoke (t : stdio_call) : M tool_result :=
  stdio_tool (stdio_prefix t) (stdio_body t).

(** ** The cached lookups *)

(** The three lookups that go through the cache. *)
Inductive cached_lookup : Type :=
| LookupChains
| LookupTokens (chain : option string)
| LookupToken (chain token : string).

(** The key each of them builds. *)
Definition cache_key (l : cached_lookup) : string :=
  match l with
  | LookupChains => "chains"
  | LookupTokens chain => tokens_one_chain_key chain
  | LookupToken chain token => token_key chain token
  end.

Definition lookup_body (l : cached_lookup) : M value :=
  match l with
  | LookupChains => chains_body
  | LookupTokens chain => tokens_one_chain_body chain
  | LookupToken chain token => token_body chain token
  end.

Definition lookup_tool (l : cached_lookup) : tool_call :=
  match l with
  | LookupChains => Chains
  | LookupTokens chain => TokensOneChain chain
  | LookupToken chain token => Token chain token
  end.

(** The ttl, in seconds, it stores its result with. *)
Definition lookup_ttl (l : cached_lookup) : N :=
  match l with
  | LookupTokens _ => 60 * 5
  | _ => cacheTTL
  end.

(** The remote call it makes on a miss. *)
Definition lookup_call (l : cached_lookup) : remote_call :=
  match l with
  | LookupChains => Call_getChains
  | LookupTokens chain => Call_getTokens (tokens_one_chain_request chain)
  | LookupToken chain token => Call_getToken (VString chain) token
  end.

(** The contract the three bodies follow (section 4.3 of the specification):
    the cached value if there is a live, truthy one; otherwise the computed
    value, stored under the key with the ttl. *)
Definition getOrCompute (key : string) (ttl : N) (compute : M value) : M value :=
  let* cached := NodeCache_get key in
  if truthy cached then ret cached
  else
    let* v := compute in
    let* _ := NodeCache_set key v ttl in
    ret v.

(** What each lookup computes on a miss. *)
Definition lookup_compute (l : cached_lookup) : M value :=
  match l with
  | LookupChains =>
      let* chains := await Call_getChains (getChains sdk) in
      ret (VArray chains)
  | LookupTokens chain =>
      let* tokens :=
        await (Call_getTokens (tokens_one_chain_request chain))
          (fun n => getTokens sdk n (tokens_one_chain_request chain)) in
      tokens_slice (property_key chain) tokens
  | LookupToken chain token =>
      let* tokenInfo :=
        await (Call_getToken (VString chain) token)
          (fun n => getToken sdk n (VString chain) token) in
      ret (VObject tokenInfo)
  end.

(** Time passing between two invocations. *)
Definition later (dt : N) (w : world) : world :=
  World (cache w) (clock w + dt) (calls w).

(** The process as it starts: nothing cached, no call made. *)
Definition started (now : N) : world := World ∅ now [].

(** The states the process can be in: tools are invoked, one after the
    other, and time passes. *)
Inductive reachable : world -> Prop :=
| reachable_started (now : N) : reachable (started now)
| reachable_invoke (t : tool_call) (w : world) :
    reachable w -> reachable (snd (invoke t w))
| reachable_later (dt : N) (w : world) :
    reachable w -> reachable (later dt w).

(** The character [-]. *)
Fixpoint has_hyphen (s : string) : bool :=
  match s with
  | EmptyString => false
  | String c r => Ascii.eqb c "-" || has_hyphen r
  end.

(** ** The session registry and the router *)

(** [isInitializeRequest] of the SDK. *)
Variable isInitializeRequest : value -> bool.
(** [randomUUID()]: the n-th identifier drawn. *)
Variable randomUUID : nat -> string.

(** The state of the gateway. Transport objects are known by reference (a
    number, in order of construction). [transports] is the object
    [const transports: { [sessionId: string]: ... } = {}]: its own
    properties, from session id to transport. [sessionIds] holds the
    [sessionId] property of every transport that has one. *)
Record gateway : Type := Gateway {
  transports : gmap string nat;
  sessionIds : gmap nat string;
  constructed : nat;
  drawn : nat
}.

(** What [transports[sessionId]] evaluates to: the transport stored under
    that own property; or, [transports] being a plain object, the function
    [Object.prototype] has under that name; or [undefined]. *)
Inductive slot : Type :=
| Own (transport : nat)
| Inherited
| Missing.

Definition transports_get (sessionId : string) (g : gateway) : slot :=
  match transports g !! sessionId with
  | Some t => Own t
  | None => if inherited sessionId then Inherited else Missing
  end.

(** [ToBoolean] of [transports[sessionId]]: transports and functions are
    objects. *)
Definition slot_truthy (s : slot) : bool :=
  match s with
  | Own _ | Inherited => true
  | Missing => false
  end.

(** A request, as far as the router reads it: the [mcp-session-id] header
    and the parsed body. *)
Record request : Type := {
  mcp_session_id : option string;
  body : value
}.

(** The JSON body of a rejection. *)
Record error_body : Type := {
  jsonrpc : string;
  error_code : Z;
  error_message : string;
  id : value
}.

(** What becomes of a request: it is handed to a transport
    ([await transport.handleRequest(...)]); or answered by
    [res.status(status).json(body)] or by [res.status(status).send(text)];
    or the handler throws. *)
Inductive response : Type :=
| Handled (transport : nat)
| Json (status : nat) (payload : error_body)
| Sent (status : nat) (text : string)
| Uncaught (message : string).

Definition bad_request : error_body :=
  {| jsonrpc := "2.0";
     error_code := -32000;
     error_message := "Bad Request: No valid session ID provided";
     id := VNull |}.

(** [await transport.handleRequest(...)] where [transport] is what
    [transports[sessionId]] gave: a function inherited from
    [Object.prototype] has no [handleRequest], and [undefined] has no
    property at all. *)
Definition handleRequest_on (s : slot) : response :=
  match s with
  | Own t => Handled t
  | Inherited => Uncaught "transport.handleRequest is not a function"
  | Missing => Uncaught "Cannot read properties of undefined (reading 'handleRequest')"
  end.

(** [app.post("/mcp", ...)]. In the second branch a transport is constructed
    with its two callbacks ([onsessioninitialized] and [onclose] below), a
    server is constructed, the tools above are registered on it and it is
    connected to the transport. *)
Definition post_mcp (req : request) (g : gateway) : response * gateway :=
  let sessionId := mcp_session_id req in
  if string_truthy sessionId
     && slot_truthy (transports_get (property_key sessionId) g)
  then (handleRequest_on (transports_get (property_key sessionId) g), g)
  else if negb (string_truthy sessionId) && isInitializeRequest (body req)
  then
    let transport := constructed g in
    (Handled transport,
     Gateway (transports g) (sessionIds g) (S (constructed g)) (drawn g))
  else (Json 400 bad_request, g).

(** [handleSessionRequest], the handler of GET and DELETE. *)
Definition handleSessionRequest (req : request) (g : gateway) : response * gateway :=
  let sessionId := mcp_session_id req in
  if negb (string_truthy sessionId)
     || negb (slot_truthy (transports_get (property_key sessionId) g))
  then (Sent 400 "Invalid or missing session ID", g)
  else (handleRequest_on (transports_get (property_key sessionId) g), g).

(** [onsessioninitialized: (sessionId) => { transports[sessionId] = transport; }] *)
Definition onsessioninitialized (transport : nat) (sessionId : string) (g : gateway)
    : gateway :=
  Gateway (<[sessionId := transport]> (transports g)) (sessionIds g)
    (constructed g) (drawn g).

(** [transport.onclose = () => { if (transport.sessionId) { delete
    transports[transport.sessionId]; } }] *)
Definition onclose (transport : nat) (g : gateway) : gateway :=
  if string_truthy (sessionIds g !! transport)
  then Gateway (delete (property_key (sessionIds g !! transport)) (transports g))
         (sessionIds g) (constructed g) (drawn g)
  else g.

(** The SDK's transport, on the initialization request it accepts: it keeps
    the identifier in its [sessionId] property and, the identifier being
    truthy, calls [onsessioninitialized] with it. *)
Definition session_initialized (transport : nat) (sessionId : string) (g : gateway)
    : gateway :=
  let g' :=
    Gateway (transports g) (<[transport := sessionId]> (sessionIds g))
      (constructed g) (drawn g) in
  if String.eqb sessionId "" then g' else onsessioninitialized transport sessionId g'.


(** What happens at the gateway: a request arrives, or a transport of the
    SDK initializes its session or closes (and calls [onclose]). *)
Inductive event : Type :=
| Post (req : request)
| GetOrDelete (req : request)
| Initialized (transport : nat) (sessionId : string)
| Closed (transport : nat).

Definition step (g : gateway) (e : event) : gateway :=
  match e with
  | Post req => snd (post_mcp req g)
  | GetOrDelete req => snd (handleSessionRequest req g)
  | Initialized t sessionId => session_initialized t sessionId g
  | Closed t => onclose t g
  end.

Definition run (events : list event) (g : gateway) : gateway :=
  fold_left step events g.

(** The event registers a session under this identifier. *)
Definition registers (sessionId : string) (e : event) : bool :=
  match e with
  | Initialized _ sessionId' => String.eqb sessionId sessionId'
  | _ => false
  end.

(** The format of [randomUUID()]: 36 characters, hyphens after the 8th,
    13th, 18th and 23rd. *)
Definition is_uuid (s : string) : bool :=
  Nat.eqb (String.length s) 36
  && forallb (fun i => match String.get i s with
                       | Some c => Ascii.eqb c "-"
                       | None => false
                       end) [8; 13; 18; 23]%nat.

(** The states of the gateway while it serves: requests arrive; a transport
    initializes its session, once (the SDK's transport answers a second
    initialization request with an error and keeps its identifier), with an
    identifier no transport was given before; transports close. *)
Inductive serving : gateway -> Prop :=
| serving_start : serving (Gateway ∅ ∅ 0 0)
| serving_post (req : request) (g : gateway) :
    serving g -> serving (snd (post_mcp req g))
| serving_get_or_delete (req : request) (g : gateway) :
    serving g -> serving (snd (handleSessionRequest req g))
| serving_initialized (t : nat) (sessionId : string) (g : gateway) :
    serving g ->
    sessionIds g !! t = None ->
    (forall t', sessionIds g !! t' <> Some sessionId) ->
    serving (session_initialized t sessionId g)
| serving_closed (t : nat) (g : gateway) :
    serving g -> serving (onclose t g).

(** The registry holds an identifier only for the transport that was given
    it, and no two transports were given the same identifier. *)
Definition registry_consistent (g : gateway) : Prop :=
  (forall sessionId t,
      transports g !! sessionId = Some t ->
      sessionIds g !! t = Some sessionId /\ sessionId <> "") /\
  (forall t t' sessionId,
      sessionIds g !! t = Some sessionId -> sessionIds g !! t' = Some sessionId ->
      t = t').

(** ** Properties of values, computations and states *)

(** What serialising with the replacer of [safeStringify] may give: a text
    for every value but [undefined], [undefined] for that one, and no
    throw. *)
Definition serialized_safely (v : value) (r : json_result) : Prop :=
  match r with
  | JText _ => v <> VUndefined
  | JUndefined => v = VUndefined
  | JThrow _ => False
  end.

(** What serialising without a replacer function may give: the [TypeError]
    of a bigint exactly when the value holds one, and no other throw. *)
Definition throws_on_bigint (v : value) (r : json_result) : Prop :=
  if contains_bigint v
  then r = JThrow "Do not know how to serialize a BigInt"
  else forall message, r <> JThrow message.

(** A computation that leaves the cache alone: from every log of calls, its
    outcome, the time it takes and the calls it adds are the same whatever
    the cache holds and whatever the time is. *)
Definition cache_free {A : Type} (m : M A) : Prop :=
  forall log, exists o d made,
    forall w, calls w = log ->
      m w = (o, World (cache w) (clock w + d) (log ++ made)%list).

(** The tools that go through the cache: the three cached lookups. *)
Definition uses_cache (t : tool_call) : bool :=
  match t with
  | Chains | TokensOneChain _ | Token _ _ => true
  | _ => false
  end.

(** A computation whose first step is this call to the remote service. *)
Definition starts_with {A : Type} (c : remote_call) (m : M A) : Prop :=
  forall w, exists made, calls (snd (m w)) = (calls w ++ c :: made)%list.

(** The tools that ask the HTTP service with [fetch]. *)
Definition fetch_tool (t : tool_call) : bool :=
  match t with
  | QuoteToAmount _ _ _ _ _ _ _ | GasPrice _ | GasPrices => true
  | _ => false
  end.

(** The calls to the remote service the handler of a tool can make in one
    invocation: one; two for the tools that ask for a token, or for the
    tokens of a chain, first; one for each token and one more for
    [token-allowance-multicall]. *)
Definition calls_bound (t : tool_call) : nat :=
  match t with
  | TokenBalance _ _ _ | TokenBalances _ _ | TokenAllowance _ _ _ _ => 2
  | TokenAllowanceMulticall _ tokens => S (length tokens)
  | _ => 1
  end.

(** The property names [tokens.tokens] can have: the decimal numeral of a
    chain id, a number that is not negative, with no sign and no leading
    zero. *)
Definition is_chain_id (key : string) : bool :=
  match BigInt_parse key with
  | Some z => Z.leb 0 z && String.eqb (BigInt_toString z) key
  | None => false
  end.

(** The cached value is the first 25 tokens of an answer the remote service
    gave, at a call the log holds, for this chain. *)
Definition sliced_from_upstream (chain : option string) (v : value) (w : world) : Prop :=
  exists n r upstream,
    calls w !! n = Some (Call_getTokens (tokens_one_chain_request chain)) /\
    getTokens sdk n (tokens_one_chain_request chain) = Returned r /\
    tokens_get (property_key chain) r = Some upstream /\
    v = VArray (firstn 25 upstream).

(** Every token list in the cache is such a value. *)
Definition cache_sound (w : world) : Prop :=
  forall chain e,
    cache w !! tokens_one_chain_key chain = Some e ->
    sliced_from_upstream chain (entry_value e) w.

(** ** Serialisation: lemmas *)

Lemma to_int_not_nil (z : Z) : Z.to_int z <> Pos Nil /\ Z.to_int z <> Neg Nil.
Proof.
  destruct z as [|p|p]; simpl; split; try discriminate;
    intros H; injection H as H;
    apply (f_equal Pos.of_uint) in H; rewrite DecimalPos.Unsigned.of_to in H;
    discriminate.
Qed.

(** The decimal string of a bigint reads back as the same integer. *)
Lemma BigInt_parse_toString (z : Z) : BigInt_parse (BigInt_toString z) = Some z.
Proof.
  unfold BigInt_parse, BigInt_toString.
  destruct (to_int_not_nil z) as [Hp Hn].
  rewrite NilZero.isi by assumption.
  now rewrite DecimalZ.of_to.
Qed.

Lemma BigInt_toString_inj (a b : Z) : BigInt_toString a = BigInt_toString b -> a = b.
Proof.
  intros H. apply (f_equal BigInt_parse) in H.
  rewrite !BigInt_parse_toString in H. congruence.
Qed.

Lemma quote_chars_digits (d : uint) :
  quote_chars (NilEmpty.string_of_uint d) = NilEmpty.string_of_uint d.
Proof. induction d; simpl; [reflexivity | now rewrite IHd ..]. Qed.

(** The digits of a bigint need no escape. *)
Lemma quote_decimal (z : Z) :
  QuoteJSONString (BigInt_toString z) = dquote +:+ BigInt_toString z +:+ dquote.
Proof.
  unfold QuoteJSONString, BigInt_toString. f_equal. f_equal.
  destruct (Z.to_int z) as [d|d]; simpl.
  - destruct d; try reflexivity; apply (quote_chars_digits (_ d)).
  - f_equal. destruct d; try reflexivity; apply (quote_chars_digits (_ d)).
Qed.

Lemma array_elements_map (ser1 ser2 : string -> value -> json_result)
    (f : value -> value) (l : list value) :
  Forall (fun x => forall key, ser1 key x = ser2 key (f x)) l ->
  forall i,
    SerializeJSONArray_elements ser1 i l =
    SerializeJSONArray_elements ser2 i (map f l).
Proof.
  induction 1 as [|x r Hx _ IH]; intros i; simpl; [reflexivity|].
  now rewrite Hx, IH.
Qed.

Lemma object_members_map (ser1 ser2 : string -> value -> json_result)
    (f : value -> value) (l : list (string * value)) :
  Forall (fun kv => forall key, ser1 key (snd kv) = ser2 key (f (snd kv))) l ->
  SerializeJSONObject_members ser1 l =
  SerializeJSONObject_members ser2 (map (fun kv => (fst kv, f (snd kv))) l).
Proof.
  induction 1 as [|x r Hx _ IH]; simpl; [reflexivity|].
  now rewrite Hx, IH.
Qed.

(** Serialising with the replacer of [safeStringify] is serialising, with no
    replacer, the value whose bigints are already decimal strings. *)
Lemma serialize_bigint_replacer (v : value) :
  forall key,
    SerializeJSONProperty bigint_replacer key v =
    SerializeJSONProperty (fun _ _ => None) key (bigints_as_decimal v).
Proof.
  induction v as [| | b | n | z | s | items IH | props IH] using value_ind_nested;
    intros key; try reflexivity.
  - simpl. now rewrite (array_elements_map _ _ _ _ IH).
  - simpl. now rewrite (object_members_map _ _ _ _ IH).
Qed.

Lemma array_elements_safe (ser : string -> value -> json_result) (l : list value) :
  Forall (fun x => forall key, serialized_safely x (ser key x)) l ->
  forall i, exists texts, SerializeJSONArray_elements ser i l = Returned texts.
Proof.
  induction 1 as [|x r Hx _ IH]; intros i; simpl; [eauto|].
  specialize (Hx (index_toString i)). destruct (IH (S i)) as [texts ->].
  destruct (ser _ x); simpl in *; [eauto | eauto | contradiction].
Qed.

Lemma object_members_safe (ser : string -> value -> json_result)
    (l : list (string * value)) :
  Forall (fun kv => forall key, serialized_safely (snd kv) (ser key (snd kv))) l ->
  exists texts, SerializeJSONObject_members ser l = Returned texts.
Proof.
  induction 1 as [|x r Hx _ [texts IH]]; simpl; [eauto|].
  specialize (Hx (fst x)). rewrite IH.
  destruct (ser _ _); simpl in *; [eauto | eauto | contradiction].
Qed.

Lemma serialize_safely (v : value) :
  forall key, serialized_safely v (SerializeJSONProperty bigint_replacer key v).
Proof.
  induction v as [| | b | n | z | s | items IH | props IH] using value_ind_nested;
    intros key; simpl; try discriminate; try reflexivity.
  - destruct (array_elements_safe _ _ IH 0) as [texts ->]. discriminate.
  - destruct (object_members_safe _ _ IH) as [texts ->]. discriminate.
Qed.

(** C8. For every value other than [undefined], [safeStringify] gives a
    text and does not throw; the text is the JSON text of the value in which
    every bigint is the string of its decimal digits; a bigint of any size
    serialises as its decimal digits between quotes, and the digits read
    back as the same integer. *)
Theorem safeStringify_exact_bigints (v : value) :
  v <> VUndefined ->
  (exists text, safeStringify v = JText text) /\
  safeStringify v = JSON_stringify (bigints_as_decimal v) None /\
  (forall z,
      safeStringify (VBigInt z) = JText (dquote +:+ BigInt_toString z +:+ dquote) /\
      BigInt_parse (BigInt_toString z) = Some z).
Proof.
  intros Hv. split; [|split].
  - pose proof (serialize_safely v "") as H. unfold safeStringify, JSON_stringify.
    simpl. destruct (SerializeJSONProperty bigint_replacer "" v); simpl in H;
      [eauto | contradiction | contradiction].
  - apply serialize_bigint_replacer.
  - intros z. split; [|apply BigInt_parse_toString].
    unfold safeStringify, JSON_stringify. simpl. now rewrite quote_decimal.
Qed.

(** Without the replacer, a bigint makes [JSON.stringify] throw. *)
Lemma JSON_stringify_bigint_throws (z : Z) :
  JSON_stringify (VBigInt z) None = JThrow "Do not know how to serialize a BigInt".
Proof. reflexivity. Qed.

Lemma array_elements_bigint (ser : string -> value -> json_result) (l : list value) :
  Forall (fun x => forall key, throws_on_bigint x (ser key x)) l ->
  forall i,
    if existsb contains_bigint l
    then SerializeJSONArray_elements ser i l =
         Thrown "Do not know how to serialize a BigInt"
    else exists texts, SerializeJSONArray_elements ser i l = Returned texts.
Proof.
  induction 1 as [|x r Hx _ IH]; intros i; simpl; [eauto|].
  specialize (Hx (index_toString i)). specialize (IH (S i)).
  unfold throws_on_bigint in Hx.
  destruct (contains_bigint x); simpl.
  - now rewrite Hx.
  - destruct (ser _ x) as [text| |message]; simpl;
      [| |now destruct (Hx message)];
      destruct (existsb contains_bigint r);
      try (now rewrite IH); destruct IH as [texts ->]; eauto.
Qed.

Lemma object_members_bigint (ser : string -> value -> json_result)
    (l : list (string * value)) :
  Forall (fun kv => forall key, throws_on_bigint (snd kv) (ser key (snd kv))) l ->
  if existsb (fun kv => contains_bigint (snd kv)) l
  then SerializeJSONObject_members ser l =
       Thrown "Do not know how to serialize a BigInt"
  else exists texts, SerializeJSONObject_members ser l = Returned texts.
Proof.
  induction 1 as [|x r Hx _ IH]; simpl; [eauto|].
  specialize (Hx (fst x)). unfold throws_on_bigint in Hx.
  destruct (contains_bigint (snd x)); simpl.
  - now rewrite Hx.
  - destruct (ser _ _) as [text| |message]; simpl;
      [| |now destruct (Hx message)];
      destruct (existsb _ r);
      try (now rewrite IH); destruct IH as [texts ->]; eauto.
Qed.

Lemma object_members_spaced_bigint (ser : string -> value -> json_result)
    (l : list (string * value)) :
  Forall (fun kv => forall key, throws_on_bigint (snd kv) (ser key (snd kv))) l ->
  if existsb (fun kv => contains_bigint (snd kv)) l
  then SerializeJSONObject_members_spaced ser l =
       Thrown "Do not know how to serialize a BigInt"
  else exists texts, SerializeJSONObject_members_spaced ser l = Returned texts.
Proof.
  induction 1 as [|x r Hx _ IH]; simpl; [eauto|].
  specialize (Hx (fst x)). unfold throws_on_bigint in Hx.
  destruct (contains_bigint (snd x)); simpl.
  - now rewrite Hx.
  - destruct (ser _ _) as [text| |message]; simpl;
      [| |now destruct (Hx message)];
      destruct (existsb _ r);
      try (now rewrite IH); destruct IH as [texts ->]; eauto.
Qed.

(** Without a replacer function, serialising throws exactly on the values
    that hold a bigint. *)
Lemma serialize_throws_on_bigint (v : value) :
  forall key, throws_on_bigint v (SerializeJSONProperty (fun _ _ => None) key v).
Proof.
  induction v as [| | b | n | z | s | items IH | props IH] using value_ind_nested;
    intros key; unfold throws_on_bigint; simpl; try discriminate; try reflexivity.
  - pose proof (array_elements_bigint _ _ IH 0) as H.
    destruct (existsb contains_bigint items).
    + now rewrite H.
    + destruct H as [texts ->]. discriminate.
  - pose proof (object_members_bigint _ _ IH) as H.
    destruct (existsb _ props).
    + now rewrite H.
    + destruct H as [texts ->]. discriminate.
Qed.

(** So does serialising with indentation. *)
Lemma serialize_spaced_throws_on_bigint (v : value) :
  forall gap indent key,
    throws_on_bigint v (SerializeJSONProperty_spaced gap indent key v).
Proof.
  induction v as [| | b | n | z | s | items IH | props IH] using value_ind_nested;
    intros gap indent key; unfold throws_on_bigint; simpl;
    try discriminate; try reflexivity.
  - assert (Forall (fun x => forall key,
      throws_on_bigint x
        (SerializeJSONProperty_spaced gap (indent +:+ gap) key x)) items) as IH'
      by (eapply Forall_impl; [exact IH | intros x Hx k; apply Hx]).
    pose proof (array_elements_bigint _ _ IH' 0) as H.
    destruct (existsb contains_bigint items).
    + now rewrite H.
    + destruct H as [texts ->]. discriminate.
  - assert (Forall (fun kv => forall key,
      throws_on_bigint (snd kv)
        (SerializeJSONProperty_spaced gap (indent +:+ gap) key (snd kv))) props) as IH'
      by (eapply Forall_impl; [exact IH | intros x Hx k; apply Hx]).
    pose proof (object_members_spaced_bigint _ _ IH') as H.
    destruct (existsb _ props).
    + now rewrite H.
    + destruct H as [texts ->]. discriminate.
Qed.

Lemma JSON_stringify_space_throws_on_bigint (v : value) (space : nat) :
  throws_on_bigint v (JSON_stringify_space v space).
Proof.
  unfold JSON_stringify_space. destruct (String.eqb _ _).
  - apply serialize_throws_on_bigint.
  - apply serialize_spaced_throws_on_bigint.
Qed.

(** A value that holds no bigint is the value [safeStringify] serialises. *)
Lemma bigints_as_decimal_plain (v : value) :
  contains_bigint v = false -> bigints_as_decimal v = v.
Proof.
  induction v as [| | b | n | z | s | items IH | props IH] using value_ind_nested;
    simpl; intros Hv; try reflexivity; try discriminate.
  - f_equal. induction IH as [|x r Hx _ IHr]; simpl in *; [reflexivity|].
    apply orb_false_iff in Hv as [Hx' Hr]. now rewrite Hx, IHr.
  - f_equal. induction IH as [|[k x] r Hx _ IHr]; simpl in *; [reflexivity|].
    apply orb_false_iff in Hv as [Hx' Hr]. now rewrite Hx, IHr.
Qed.

(** X3. [safeStringify] and [JSON.stringify] differ exactly on the values that
    hold a bigint, at the root or at any depth: there [JSON.stringify], with
    or without indentation, throws the TypeError `Do not know how to
    serialize a BigInt' and [safeStringify] gives a text; on every other
    value [safeStringify] gives what [JSON.stringify] gives, and
    [JSON.stringify] does not throw. *)
Theorem safeStringify_differs_on_bigints (v : value) (space : nat) :
  if contains_bigint v
  then JSON_stringify v None = JThrow "Do not know how to serialize a BigInt" /\
       JSON_stringify_space v space = JThrow "Do not know how to serialize a BigInt" /\
       exists text, safeStringify v = JText text
  else safeStringify v = JSON_stringify v None /\
       (forall message, JSON_stringify v None <> JThrow message) /\
       (forall message, JSON_stringify_space v space <> JThrow message).
Proof.
  pose proof (serialize_throws_on_bigint v "") as Hplain.
  pose proof (JSON_stringify_space_throws_on_bigint v space) as Hspaced.
  unfold throws_on_bigint in *.
  destruct (contains_bigint v) eqn:Hv.
  - split; [exact Hplain|]. split; [exact Hspaced|].
    pose proof (serialize_safely v "") as H.
    unfold safeStringify, JSON_stringify. simpl.
    destruct (SerializeJSONProperty bigint_replacer "" v); simpl in H;
      [eauto | now subst v | contradiction].
  - split; [|split; assumption].
    unfold safeStringify, JSON_stringify. simpl.
    now rewrite serialize_bigint_replacer, bigints_as_decimal_plain.
Qed.

(** ** Cache keys: theorems *)

Lemma append_cons (a : ascii) (s t : string) : String a s +:+ t = String a (s +:+ t).
Proof. reflexivity. Qed.

Lemma append_nil (t : string) : "" +:+ t = t.
Proof. reflexivity. Qed.

Ltac string_simpl := repeat (rewrite ?append_cons, ?append_nil in * ).

Lemma hyphen_splits (c1 : string) :
  forall c2 t1 t2,
    has_hyphen c1 = false -> has_hyphen c2 = false ->
    c1 +:+ "-" +:+ t1 = c2 +:+ "-" +:+ t2 ->
    c1 = c2 /\ t1 = t2.
Proof.
  induction c1 as [|a c1 IH]; intros [|b c2] t1 t2 H1 H2 H; string_simpl; simpl in *.
  - injection H as ->. now split.
  - injection H as <- _. discriminate H2.
  - injection H as -> _. discriminate H1.
  - injection H as -> H.
    apply orb_false_iff in H1 as [_ H1]. apply orb_false_iff in H2 as [_ H2].
    destruct (IH _ _ _ H1 H2 H) as [-> ->]. now split.
Qed.

(** The key of a token list is the key of no other lookup. *)
Lemma tokens_key_apart (chain : option string) (l : cached_lookup) :
  tokens_one_chain_key chain = cache_key l -> exists chain', l = LookupTokens chain'.
Proof.
  destruct l as [|chain'|chain' token']; [| now exists chain' |];
    unfold cache_key, tokens_one_chain_key, token_key; intros H;
    string_simpl; discriminate H.
Qed.

(** C7, as amended. The keys of two different operations never coincide.
    Two [tokens-one-chain] lookups have the same key only when [chain ||
    "all"] is the same string for both. Two [token] lookups whose chain
    arguments contain no hyphen have the same key only when they have the
    same chain and the same token. *)
Theorem cache_keys_distinct (a b : cached_lookup) :
  cache_key a = cache_key b ->
  match a, b with
  | LookupChains, LookupChains => True
  | LookupTokens chain1, LookupTokens chain2 =>
      or_else chain1 "all" = or_else chain2 "all"
  | LookupToken chain1 token1, LookupToken chain2 token2 =>
      has_hyphen chain1 = false -> has_hyphen chain2 = false ->
      chain1 = chain2 /\ token1 = token2
  | _, _ => False
  end.
Proof.
  destruct a as [|chain1|chain1 token1], b as [|chain2|chain2 token2];
    unfold cache_key, tokens_one_chain_key, token_key; intros H;
    string_simpl; try discriminate H; try exact I.
  - now injection H.
  - injection H as H. intros H1 H2. now apply hyphen_splits.
Qed.

(** ** Handlers: what they do to the state *)

Lemma cache_free_ret {A : Type} (a : A) : cache_free (ret a).
Proof.
  intros log. exists (Returned a), 0%N, []. intros [c k l] <-. unfold ret. simpl.
  now rewrite N.add_0_r, app_nil_r.
Qed.

Lemma cache_free_throw {A : Type} (e : string) : cache_free (@throw A e).
Proof.
  intros log. exists (Thrown e), 0%N, []. intros [c k l] <-. unfold throw. simpl.
  now rewrite N.add_0_r, app_nil_r.
Qed.

Lemma cache_free_lift {A : Type} (o : outcome A) : cache_free (lift o).
Proof.
  intros log. exists o, 0%N, []. intros [c k l] <-. unfold lift. simpl.
  now rewrite N.add_0_r, app_nil_r.
Qed.

Lemma cache_free_await {A : Type} (c : remote_call) (answer : nat -> outcome A) :
  cache_free (await c answer).
Proof.
  intros log. exists (answer (length log)), (latency sdk (length log)), [c].
  now intros w <-.
Qed.

Lemma cache_free_await_all {A : Type}
    (started : list (remote_call * (nat -> outcome A))) :
  cache_free (await_all started).
Proof.
  intros log.
  exists (all_answers (length log) (map snd started)),
         (longest_latency (length log) (length started)), (map fst started).
  now intros w <-.
Qed.

Lemma cache_free_bind {A B : Type} (m : M A) (k : A -> M B) :
  cache_free m -> (forall a, cache_free (k a)) -> cache_free (bind m k).
Proof.
  intros Hm Hk log. destruct (Hm log) as (o & d & made & H).
  destruct o as [a|e].
  - destruct (Hk a (log ++ made)%list) as (o' & d' & made' & H').
    exists o', (d + d')%N, (made ++ made')%list. intros w Hw.
    unfold bind. rewrite (H w Hw). rewrite H' by reflexivity. simpl.
    now rewrite N.add_assoc, app_assoc.
  - exists (Thrown e), d, made. intros w Hw. unfold bind. now rewrite (H w Hw).
Qed.

Lemma cache_free_try_catch {A : Type} (m : M A) (h : string -> M A) :
  cache_free m -> (forall e, cache_free (h e)) -> cache_free (try_catch m h).
Proof.
  intros Hm Hh log. destruct (Hm log) as (o & d & made & H).
  destruct o as [a|e].
  - exists (Returned a), d, made. intros w Hw. unfold try_catch. now rewrite (H w Hw).
  - destruct (Hh e (log ++ made)%list) as (o' & d' & made' & H').
    exists o', (d + d')%N, (made ++ made')%list. intros w Hw.
    unfold try_catch. rewrite (H w Hw). rewrite H' by reflexivity. simpl.
    now rewrite N.add_assoc, app_assoc.
Qed.

Lemma cache_free_text_of (r : json_result) : cache_free (text_of r).
Proof. destruct r; [apply cache_free_ret | apply cache_free_ret | apply cache_free_throw]. Qed.

Lemma cache_free_parse_of (r : json_result) : cache_free (parse_of r).
Proof. destruct r; [apply cache_free_lift | apply cache_free_lift | apply cache_free_throw]. Qed.

Lemma cache_free_check_ok (res : Response) : cache_free (check_ok res).
Proof.
  unfold check_ok. destruct (response_ok res); [apply cache_free_ret|].
  apply cache_free_bind; [apply cache_free_lift | intros; apply cache_free_throw].
Qed.

(** Breaks a computation into its steps. *)
Ltac cache_free_steps :=
  repeat first
    [ apply cache_free_ret | apply cache_free_throw | apply cache_free_lift
    | apply cache_free_await | apply cache_free_await_all
    | apply cache_free_text_of | apply cache_free_parse_of
    | apply cache_free_check_ok
    | apply cache_free_bind; [|intros ?]
    | apply cache_free_try_catch; [|intros ?] ].

Lemma cache_free_text_tool (prefix : string) (body : M value) :
  cache_free body -> cache_free (text_tool prefix body).
Proof. intros H. unfold text_tool, text_try. cache_free_steps. exact H. Qed.

Lemma invoke_cache_free (t : tool_call) : uses_cache t = false -> cache_free (invoke t).
Proof.
  destruct t; simpl; intros H; try discriminate H;
    unfold swap_handler, bridge_handler, quote_try,
      tokens_multiple_chains_handler, tokens_multiple_chains_body,
      tools_handler, tools_body, quote_to_amount_handler, quote_to_amount_body,
      connections_handler, connections_body,
      token_balance_handler, token_balance_try,
      token_balances_handler, token_balances_try,
      token_allowance_handler, token_allowance_body,
      token_allowance_multicall_handler, token_allowance_multicall_body,
      routes_handler, routes_body, status_handler, status_body,
      gas_price_handler, gas_prices_handler, gas_body;
    try apply cache_free_text_tool; cache_free_steps.
Qed.

Lemma starts_with_await {A : Type} (c : remote_call) (answer : nat -> outcome A) :
  starts_with c (await c answer).
Proof. intros w. now exists []. Qed.

Lemma starts_with_await_all {A : Type} (x : remote_call * (nat -> outcome A))
    (started : list (remote_call * (nat -> outcome A))) :
  starts_with (fst x) (await_all (x :: started)).
Proof. intros w. now exists (map fst started). Qed.

Lemma starts_with_bind {A B : Type} (c : remote_call) (m : M A) (k : A -> M B) :
  starts_with c m -> (forall a, cache_free (k a)) -> starts_with c (bind m k).
Proof.
  intros Hm Hk w. destruct (Hm w) as [made H]. unfold bind.
  destruct (m w) as [[a|e] w1]; simpl in H; [|now exists made].
  destruct (Hk a (calls w1)) as (o & d & made' & H').
  rewrite H' by reflexivity. simpl. exists (made ++ made')%list.
  now rewrite H, <- app_assoc.
Qed.

Lemma starts_with_try_catch {A : Type} (c : remote_call) (m : M A) (h : string -> M A) :
  starts_with c m -> (forall e, cache_free (h e)) -> starts_with c (try_catch m h).
Proof.
  intros Hm Hh w. destruct (Hm w) as [made H]. unfold try_catch.
  destruct (m w) as [[a|e] w1]; simpl in H; [now exists made|].
  destruct (Hh e (calls w1)) as (o & d & made' & H').
  rewrite H' by reflexivity. simpl. exists (made ++ made')%list.
  now rewrite H, <- app_assoc.
Qed.

Lemma starts_with_text_tool (c : remote_call) (prefix : string) (body : M value) :
  starts_with c body -> starts_with c (text_tool prefix body).
Proof.
  intros H. unfold text_tool, text_try.
  apply starts_with_try_catch; [|intros; apply cache_free_ret].
  apply starts_with_bind; [exact H|]. intros a. cache_free_steps.
Qed.

Ltac starts_with_steps :=
  repeat first
    [ apply starts_with_await
    | apply starts_with_text_tool
    | apply starts_with_try_catch; [|intros ?; cache_free_steps]
    | apply starts_with_bind; [|intros ?; cache_free_steps] ].

(** A tool that reads live state starts with a call to the remote service. *)
Lemma live_state_starts_with (t : tool_call) :
  live_state t = true ->
  exists c, first_call t = Some c /\ starts_with c (invoke t).
Proof.
  destruct t; simpl; intros H; try discriminate H;
    try (eexists; split; [reflexivity|];
         unfold token_balance_handler, token_balance_try,
           token_balances_handler, token_balances_try,
           token_allowance_handler, token_allowance_body,
           status_handler, status_body,
           gas_price_handler, gas_prices_handler, gas_body;
         starts_with_steps; fail).
  unfold token_allowance_multicall_handler, token_allowance_multicall_body.
  destruct tokens0 as [|x tokens0]; (eexists; split; [reflexivity|]).
  - apply starts_with_text_tool. intros w. exists [].
    unfold bind, await_all, await. simpl. now rewrite app_nil_r.
  - apply starts_with_text_tool. apply starts_with_bind.
    + apply (starts_with_await_all
               (Call_getToken (VNumber (snd (fst x))) (fst (fst x)),
                fun n => getToken sdk n (VNumber (snd (fst x))) (fst (fst x)))).
    + intros a. cache_free_steps.
Qed.

(** C6. A tool that reads live state (a balance, an allowance, the status of
    a transaction, a gas price) does not write to the cache; its outcome is
    the same whatever the cache holds; and each of two consecutive
    invocations with the same arguments starts with the same, new call to
    the remote service. *)
Theorem live_state_never_cached (t : tool_call) (w : world) :
  live_state t = true ->
  cache (snd (invoke t w)) = cache w /\
  (forall w', calls w' = calls w -> fst (invoke t w') = fst (invoke t w)) /\
  exists c made1 made2,
    first_call t = Some c /\
    calls (snd (invoke t w)) = (calls w ++ c :: made1)%list /\
    calls (snd (invoke t (snd (invoke t w)))) =
      (calls (snd (invoke t w)) ++ c :: made2)%list.
Proof.
  intros Hlive.
  assert (Hfree : cache_free (invoke t)).
  { apply invoke_cache_free. now destruct t. }
  destruct (Hfree (calls w)) as (o & d & made & H).
  split; [|split].
  - now rewrite (H w eq_refl).
  - intros w' Hw'. now rewrite (H w' Hw'), (H w eq_refl).
  - destruct (live_state_starts_with t Hlive) as (c & Hc & Hstarts).
    destruct (Hstarts w) as [made1 H1].
    destruct (Hstarts (snd (invoke t w))) as [made2 H2].
    now exists c, made1, made2.
Qed.

(** ** Handlers never throw *)




(** The scenario of the specification: a rejected call of [token-balance]
    gives the error envelope. *)
Lemma token_balance_rejected (walletAddress : string) (chainId : number)
    (token message : string) (w : world) :
  getToken sdk (length (calls w)) (VNumber chainId) token = Thrown message ->
  fst (invoke (TokenBalance walletAddress chainId token) w) =
    Returned (StructuredContent
                [("error", VString ("Failed to get token balance: " +:+ message))]).
Proof.
  intros H. simpl. unfold token_balance_handler, token_balance_try, try_catch, bind, await.
  now rewrite H.
Qed.

(** ** The cache: theorems *)

Lemma NodeCache_get_live (key : string) (w : world) (e : cache_entry) :
  cache w !! key = Some e -> expired (clock w) e = false ->
  NodeCache_get key w = (Returned (entry_value e), w).
Proof. unfold NodeCache_get. now intros -> ->. Qed.

Lemma NodeCache_get_expired (key : string) (w : world) (e : cache_entry) :
  cache w !! key = Some e -> expired (clock w) e = true ->
  NodeCache_get key w =
    (Returned VUndefined, World (delete key (cache w)) (clock w) (calls w)).
Proof. unfold NodeCache_get. now intros -> ->. Qed.

(** A lookup either finds a live, truthy entry and returns it, changing
    nothing; or computes, from a state that differs from the present one at
    most by the deletion of the key, and stores what was computed. *)
Lemma getOrCompute_cases (key : string) (ttl : N) (compute : M value) (w : world) :
  (exists e,
      cache w !! key = Some e /\ expired (clock w) e = false /\
      truthy (entry_value e) = true /\
      getOrCompute key ttl compute w = (Returned (entry_value e), w)) \/
  (exists wb,
      calls wb = calls w /\ clock wb = clock w /\
      (cache wb = cache w \/ cache wb = delete key (cache w)) /\
      getOrCompute key ttl compute w =
        match compute wb with
        | (Returned v, w') =>
            (Returned v,
             World (<[key := CacheEntry v
                               (if N.eqb ttl 0 then 0%N else (clock w' + ttl * 1000)%N)]>
                      (cache w'))
               (clock w') (calls w'))
        | (Thrown e, w') => (Thrown e, w')
        end).
Proof.
  unfold getOrCompute, bind, NodeCache_get.
  destruct (cache w !! key) as [e|] eqn:E.
  - destruct (expired (clock w) e) eqn:X.
    + right. exists (World (delete key (cache w)) (clock w) (calls w)).
      split; [reflexivity|]. split; [reflexivity|]. split; [now right|].
      simpl. now destruct (compute _) as [[v|m] w'].
    + destruct (truthy (entry_value e)) eqn:T.
      * left. exists e. now repeat split.
      * right. exists w. split; [reflexivity|]. split; [reflexivity|].
        split; [now left|]. now destruct (compute w) as [[v|m] w'].
  - right. exists w. split; [reflexivity|]. split; [reflexivity|].
    split; [now left|]. simpl. now destruct (compute w) as [[v|m] w'].
Qed.

Lemma getOrCompute_hit (key : string) (ttl : N) (compute : M value) (w : world)
    (e : cache_entry) :
  cache w !! key = Some e -> expired (clock w) e = false ->
  truthy (entry_value e) = true ->
  getOrCompute key ttl compute w = (Returned (entry_value e), w).
Proof.
  intros E X T. unfold getOrCompute, bind. rewrite (NodeCache_get_live _ _ _ E X).
  now rewrite T.
Qed.

Lemma getOrCompute_expired (key : string) (ttl : N) (compute : M value) (w : world)
    (e : cache_entry) :
  cache w !! key = Some e -> expired (clock w) e = true ->
  getOrCompute key ttl compute w =
    match compute (World (delete key (cache w)) (clock w) (calls w)) with
    | (Returned v, w') =>
        (Returned v,
         World (<[key := CacheEntry v
                           (if N.eqb ttl 0 then 0%N else (clock w' + ttl * 1000)%N)]>
                  (cache w'))
           (clock w') (calls w'))
    | (Thrown m, w') => (Thrown m, w')
    end.
Proof.
  intros E X. unfold getOrCompute, bind. rewrite (NodeCache_get_expired _ _ _ E X).
  simpl. destruct (compute _) as [[v|m] w']; reflexivity.
Qed.

(** The three bodies follow the contract. *)
Lemma lookup_body_getOrCompute (l : cached_lookup) (w : world) :
  lookup_body l w = getOrCompute (cache_key l) (lookup_ttl l) (lookup_compute l) w.
Proof.
  destruct l as [|chain|chain token]; simpl;
    unfold chains_body, tokens_one_chain_body, token_body, getOrCompute, bind;
    destruct (NodeCache_get _ w) as [[c|e] w1]; try reflexivity;
    destruct (truthy c); try reflexivity;
    destruct (await _ _ w1) as [[x|e] w2]; reflexivity.
Qed.

(** What a lookup computes on a miss: one call to the remote service, no
    change to the cache, and a truthy value when the call succeeds. *)
Lemma lookup_compute_once (l : cached_lookup) (w : world) :
  exists o,
    lookup_compute l w =
      (o, World (cache w) (clock w + latency sdk (length (calls w)))
            (calls w ++ [lookup_call l])%list) /\
    forall v, o = Returned v -> truthy v = true.
Proof.
  destruct l as [|chain|chain token]; simpl; unfold bind, await.
  - destruct (getChains sdk _) as [x|e]; eexists; (split; [reflexivity|]);
      intros v H; [now injection H as <- | discriminate H].
  - destruct (getTokens sdk _ _) as [x|e]; [|eexists; split; [reflexivity|discriminate]].
    unfold tokens_slice. destruct (tokens_get _ x);
      eexists; (split; [reflexivity|]); intros v H;
      [now injection H as <- | discriminate H].
  - destruct (getToken sdk _ _ _) as [x|e]; eexists; (split; [reflexivity|]);
      intros v H; [now injection H as <- | discriminate H].
Qed.

Lemma lookup_ttl_positive (l : cached_lookup) : N.eqb (lookup_ttl l) 0 = false.
Proof. now destruct l. Qed.

(** A handler that answers with a text returns the text of what its body
    returned. *)
Lemma text_tool_returned (prefix : string) (body : M value) (w w1 : world) (v : value) :
  body w = (Returned v, w1) ->
  text_tool prefix body w = (Returned (Content (json_text (safeStringify v))), w1).
Proof.
  intros H. unfold text_tool, text_try, try_catch, bind. rewrite H.
  pose proof (serialize_safely v "") as Hs. unfold safeStringify, JSON_stringify.
  simpl. destruct (SerializeJSONProperty bigint_replacer "" v);
    simpl in *; [reflexivity | reflexivity | contradiction].
Qed.

Lemma invoke_lookup_tool (l : cached_lookup) (w : world) :
  invoke (lookup_tool l) w = text_tool (failure_prefix (lookup_tool l)) (lookup_body l) w.
Proof. destruct l; reflexivity. Qed.

(** After a lookup that returned a value, the cache holds that value, truthy,
    under the lookup's key; the lookup made at most one call; and an entry it
    stored expires [ttl] seconds after it was stored. *)
Lemma lookup_returned (l : cached_lookup) (w0 w1 : world) (v : value) :
  lookup_body l w0 = (Returned v, w1) ->
  exists e,
    cache w1 !! cache_key l = Some e /\ entry_value e = v /\ truthy v = true /\
    ((w1 = w0 /\ expired (clock w0) e = false) \/
     (calls w1 = (calls w0 ++ [lookup_call l])%list /\
      entry_expiry e = (clock w1 + lookup_ttl l * 1000)%N)).
Proof.
  rewrite lookup_body_getOrCompute. intros H.
  destruct (getOrCompute_cases (cache_key l) (lookup_ttl l) (lookup_compute l) w0)
    as [(e & E & X & T & Hhit)|(wb & Hcalls & Hclock & Hcache & Hmiss)].
  - rewrite Hhit in H. injection H as <- <-. exists e. repeat split; try assumption.
    now left.
  - rewrite Hmiss in H. destruct (lookup_compute_once l wb) as (o & Ho & Htruthy).
    rewrite Ho in H. destruct o as [v0|m]; [|discriminate H].
    injection H as <- <-. rewrite lookup_ttl_positive. simpl.
    eexists. split; [apply lookup_insert_eq|]. split; [reflexivity|].
    split; [now apply Htruthy|]. right. now rewrite Hcalls.
Qed.


(** The later the time, the more has expired. *)
Lemma expired_later (e : cache_entry) (now dt : N) :
  expired (now + dt) e = false -> expired now e = false.
Proof.
  unfold expired. destruct (N.eqb (entry_expiry e) 0); [reflexivity|]. simpl.
  rewrite !N.ltb_ge. lia.
Qed.

(** X2. A cached lookup that fails stores nothing: it made its call to the
    remote service, and the next lookup with the same key, whenever it
    comes, makes the call again. *)
Theorem failed_lookup_not_cached (l : cached_lookup) (w w1 : world) (message : string) :
  lookup_body l w = (Thrown message, w1) ->
  calls w1 = (calls w ++ [lookup_call l])%list /\
  forall dt,
    calls (snd (lookup_body l (later dt w1))) = (calls w1 ++ [lookup_call l])%list.
Proof.
  rewrite lookup_body_getOrCompute. intros H. pose proof H as Hfailed.
  destruct (getOrCompute_cases (cache_key l) (lookup_ttl l) (lookup_compute l) w)
    as [(e & E & X & T & Hhit)|(wb & Hcalls & Hclock & Hcache & Hmiss)].
  { rewrite Hhit in H. discriminate H. }
  rewrite Hmiss in H. destruct (lookup_compute_once l wb) as (o & Ho & _).
  rewrite Ho in H. destruct o as [v|m]; [discriminate H|]. injection H as _ <-.
  simpl. split; [now rewrite Hcalls|]. intros dt.
  rewrite lookup_body_getOrCompute.
  match goal with
  | |- context [getOrCompute ?k ?t ?c ?w2] =>
      destruct (getOrCompute_cases k t c w2)
        as [(e & E & X & T & Hhit)|(wb' & Hcalls' & _ & _ & Hmiss')]
  end.
  - exfalso. simpl in E, X.
    assert (E0 : cache w !! cache_key l = Some e).
    { destruct Hcache as [Hc|Hc]; rewrite Hc in E; [exact E|].
      now rewrite lookup_delete_eq in E. }
    rewrite Hclock, <- N.add_assoc in X. apply expired_later in X.
    rewrite (getOrCompute_hit _ _ _ _ _ E0 X T) in Hfailed. discriminate Hfailed.
  - rewrite Hmiss'. destruct (lookup_compute_once l wb') as (o' & Ho' & _).
    rewrite Ho', Hcalls'. now destruct o'.
Qed.

(** ** Token lists: theorems *)

Lemma sliced_from_upstream_grows (chain : option string) (v : value) (w w' : world) :
  (exists made, calls w' = (calls w ++ made)%list) ->
  sliced_from_upstream chain v w -> sliced_from_upstream chain v w'.
Proof.
  intros [made Hmade] (n & r & upstream & Hn & Hr & Hget & Hv).
  exists n, r, upstream. repeat split; try assumption.
  rewrite Hmade. now apply lookup_app_l_Some.
Qed.

(** The property names of [tokens.tokens] are decimal numerals, which none of
    these words is. *)
Lemma tokens_get_numeral (key : string) (r : TokensResponse) (l : list value) :
  tokens_get key r = Some l -> exists k, key = N_toString k.
Proof.
  unfold tokens_get. destruct (find _ (tokens r)) as [entry|] eqn:E; [|discriminate].
  intros _. apply find_some in E as [_ E]. apply String.eqb_eq in E. eauto.
Qed.

Lemma numeral_parses (k : N) : BigInt_parse (N_toString k) = Some (Z.of_N k).
Proof. apply BigInt_parse_toString. Qed.

Lemma numeral_no_word (k : N) :
  N_toString k <> "undefined" /\ N_toString k <> "" /\ N_toString k <> "all".
Proof.
  repeat split; intros H; pose proof (numeral_parses k) as P; rewrite H in P;
    discriminate P.
Qed.

(** A chain whose tokens were found is a numeral, and no other chain shares
    its key. *)
Lemma found_chain_key (chain chain' : option string) (r : TokensResponse)
    (l : list value) :
  tokens_get (property_key chain) r = Some l ->
  tokens_one_chain_key chain' = tokens_one_chain_key chain ->
  chain' = chain.
Proof.
  intros Hget Hkey. apply tokens_get_numeral in Hget as [k Hk].
  destruct (numeral_no_word k) as (Hu & He & Ha).
  unfold tokens_one_chain_key in Hkey. string_simpl. injection Hkey as Hkey.
  destruct chain as [c|]; simpl in Hk; [subst c|congruence].
  simpl in Hkey. apply String.eqb_neq in He. rewrite He in Hkey.
  destruct chain' as [c'|]; simpl in Hkey; [|congruence].
  destruct (String.eqb c' ""); congruence.
Qed.

(** What a lookup of tokens computes on a miss. *)
Lemma tokens_compute_returned (chain : option string) (w w' : world) (v : value) :
  lookup_compute (LookupTokens chain) w = (Returned v, w') ->
  exists r upstream,
    getTokens sdk (length (calls w)) (tokens_one_chain_request chain) = Returned r /\
    tokens_get (property_key chain) r = Some upstream /\
    v = VArray (firstn 25 upstream).
Proof.
  simpl. unfold bind, await.
  destruct (getTokens sdk _ _) as [r|m] eqn:Hr; [|discriminate].
  unfold tokens_slice. destruct (tokens_get _ r) as [upstream|] eqn:Hget; [|discriminate].
  unfold ret. intros H. injection H as <- _. now exists r, upstream.
Qed.

(** The state a lookup leaves: the log has grown, and an entry of the cache
    was there before or is what the lookup just computed. *)
Lemma lookup_body_world (l : cached_lookup) (w : world) :
  (exists made, calls (snd (lookup_body l w)) = (calls w ++ made)%list) /\
  forall k e,
    cache (snd (lookup_body l w)) !! k = Some e ->
    cache w !! k = Some e \/
    (k = cache_key l /\
     exists wb w',
       calls wb = calls w /\
       lookup_compute l wb = (Returned (entry_value e), w') /\
       calls (snd (lookup_body l w)) = (calls w ++ [lookup_call l])%list).
Proof.
  rewrite lookup_body_getOrCompute.
  destruct (getOrCompute_cases (cache_key l) (lookup_ttl l) (lookup_compute l) w)
    as [(e & E & X & T & Hhit)|(wb & Hcalls & Hclock & Hcache & Hmiss)].
  - rewrite Hhit. simpl. split; [exists []; now rewrite app_nil_r | now left].
  - rewrite Hmiss. destruct (lookup_compute_once l wb) as (o & Ho & _).
    rewrite Ho. assert (Hold : forall k e, cache wb !! k = Some e -> cache w !! k = Some e).
    { intros k e. destruct Hcache as [->| ->]; [easy|].
      intros H. apply lookup_delete_Some in H. tauto. }
    destruct o as [v|m]; simpl; rewrite Hcalls.
    + split; [now exists [lookup_call l]|]. intros k e H.
      destruct (decide (k = cache_key l)) as [->|Hne].
      * rewrite lookup_insert_eq in H. injection H as <-. right.
        split; [reflexivity|]. exists wb. eexists. simpl.
        split; [assumption|]. split; [exact Ho | reflexivity].
      * rewrite lookup_insert_ne in H by congruence. left. now apply Hold.
    + split; [now exists [lookup_call l]|]. intros k e H. left. now apply Hold.
Qed.

Lemma text_tool_world (prefix : string) (body : M value) (w : world) :
  snd (text_tool prefix body w) = snd (body w).
Proof.
  unfold text_tool, text_try, try_catch, bind.
  destruct (body w) as [[v|m] w1]; [|reflexivity].
  destruct (safeStringify v); reflexivity.
Qed.

(** Every tool keeps the cache sound. *)
Lemma cache_sound_invoke (t : tool_call) (w : world) :
  cache_sound w -> cache_sound (snd (invoke t w)).
Proof.
  intros Hw. destruct (uses_cache t) eqn:U.
  - assert (Ht : exists l, t = lookup_tool l).
    { destruct t; try discriminate U;
        [now exists LookupChains | now exists (LookupTokens chain)
        | now exists (LookupToken chain token)]. }
    destruct Ht as [l ->]. rewrite invoke_lookup_tool, text_tool_world.
    destruct (lookup_body_world l w) as [Hgrow Hentries].
    intros chain e He. destruct (Hentries _ _ He) as [Hold|(Hkey & wb & w' & Hcalls & Hcomp & Hlog)].
    + eapply sliced_from_upstream_grows; [exact Hgrow | now apply Hw].
    + destruct (tokens_key_apart _ _ Hkey) as [chain0 ->].
      destruct (tokens_compute_returned _ _ _ _ Hcomp) as (r & upstream & Hr & Hget & Hv).
      simpl in Hkey. rewrite (found_chain_key _ _ _ _ Hget Hkey).
      exists (length (calls w)), r, upstream. rewrite Hcalls in Hr.
      repeat split; try assumption.
      rewrite Hlog. simpl. apply list_lookup_middle. reflexivity.
  - destruct (invoke_cache_free t U (calls w)) as (o & d & made & H).
    rewrite (H w eq_refl). simpl. intros chain e He.
    eapply sliced_from_upstream_grows; [|now apply Hw]. now exists made.
Qed.

Lemma reachable_cache_sound (w : world) : reachable w -> cache_sound w.
Proof.
  induction 1 as [now|t w _ IH|dt w _ IH].
  - intros chain e H. simpl in H. now rewrite lookup_empty in H.
  - now apply cache_sound_invoke.
  - exact IH.
Qed.

(** Nothing is ever cached under [tokens-all]. *)
Lemma cache_sound_tokens_all (w : world) : cache_sound w -> cache w !! "tokens-all" = None.
Proof.
  intros Hw. destruct (cache w !! "tokens-all") as [e|] eqn:E; [|reflexivity].
  destruct (Hw None e E) as (n & r & upstream & _ & _ & Hget & _).
  apply tokens_get_numeral in Hget as [k Hk]. simpl in Hk.
  destruct (numeral_no_word k) as (Hu & _). congruence.
Qed.

(** C10. In every state the process can reach, [tokens-one-chain] invoked
    without a chain throws inside its [try] block (the call is rejected, or
    the answer has no property for the undefined chain and slicing throws),
    so the handler returns its error envelope and not a token list; and
    nothing is, or comes to be, cached under [tokens-all]. *)
Theorem tokens_one_chain_without_chain (w : world) :
  reachable w ->
  exists message w',
    fst (tokens_one_chain_body None w) = Thrown message /\
    invoke (TokensOneChain None) w =
      (Returned (Content (Some ("Failed to get tokens: " +:+ message))), w') /\
    cache w !! "tokens-all" = None /\
    cache w' !! "tokens-all" = None.
Proof.
  intros Hw. apply reachable_cache_sound, cache_sound_tokens_all in Hw.
  assert (Hbody : exists message,
             tokens_one_chain_body None w =
               (Thrown message,
                World (cache w) (clock w + latency sdk (length (calls w)))
                  (calls w ++ [Call_getTokens (tokens_one_chain_request None)])%list)).
  { unfold tokens_one_chain_body, bind, NodeCache_get.
    change (tokens_one_chain_key None) with "tokens-all". rewrite Hw. simpl.
    unfold await. simpl. destruct (getTokens sdk _ _) as [r|m]; [|eauto].
    unfold tokens_slice. destruct (tokens_get _ r) as [l|] eqn:Hget; [|eauto].
    apply tokens_get_numeral in Hget as [k Hk].
    destruct (numeral_no_word k) as (Hu & _). simpl in Hk. congruence. }
  destruct Hbody as [message Hbody]. exists message. eexists.
  split; [now rewrite Hbody|]. split.
  - simpl. unfold tokens_one_chain_handler, text_tool, text_try, try_catch, bind.
    rewrite Hbody. reflexivity.
  - split; assumption.
Qed.

(** C9. In every state the process can reach, a token list that
    [tokens-one-chain] returns is the first 25 tokens, at most, of an answer
    the remote service gave for that chain; and in the answer of
    [tokens-multiple-chains] the list of every chain is the first 25 tokens,
    at most, of the list the remote service answered for it. *)
Theorem token_lists_truncated :
  (forall (chain : option string) (w w1 : world) (v : value),
      reachable w ->
      tokens_one_chain_body chain w = (Returned v, w1) ->
      invoke (TokensOneChain chain) w =
        (Returned (Content (json_text (safeStringify v))), w1) /\
      exists n r upstream,
        calls w1 !! n = Some (Call_getTokens (tokens_one_chain_request chain)) /\
        getTokens sdk n (tokens_one_chain_request chain) = Returned r /\
        tokens_get (property_key chain) r = Some upstream /\
        v = VArray (firstn 25 upstream) /\
        length (firstn 25 upstream) <= 25) /\
  (forall (chains : option (list string)) (w w1 : world) (v : value),
      tokens_multiple_chains_body chains w = (Returned v, w1) ->
      invoke (TokensMultipleChains chains) w =
        (Returned (Content (json_text (safeStringify v))), w1) /\
      exists r,
        getTokens sdk (length (calls w)) (tokens_multiple_chains_request chains)
          = Returned r /\
        v = TokensResponse_value (truncate_tokens r) /\
        Forall2 (fun kept upstream =>
                   fst kept = fst upstream /\
                   snd kept = firstn 25 (snd upstream) /\
                   length (snd kept) <= 25)
          (tokens (truncate_tokens r)) (tokens r)).
Proof.
  split.
  - intros chain w w1 v Hw Hbody.
    split; [now apply (text_tool_returned _ _ _ _ _ Hbody)|].
    assert (Hsound : cache_sound w1).
    { replace w1 with (snd (invoke (TokensOneChain chain) w)).
      - now apply cache_sound_invoke, reachable_cache_sound.
      - simpl. unfold tokens_one_chain_handler. now rewrite text_tool_world, Hbody. }
    destruct (lookup_returned (LookupTokens chain) w w1 v Hbody) as (e & E & Hv & _).
    destruct (Hsound chain e E) as (n & r & upstream & Hn & Hr & Hget & Hs).
    exists n, r, upstream. repeat split; try assumption.
    + congruence.
    + apply List.firstn_le_length.
  - intros chains w w1 v Hbody.
    split; [now apply (text_tool_returned _ _ _ _ _ Hbody)|].
    unfold tokens_multiple_chains_body, bind, await in Hbody.
    destruct (getTokens sdk _ _) as [r|m] eqn:Hr; [|discriminate].
    unfold ret in Hbody. injection Hbody as <- _. exists r.
    split; [reflexivity|]. split; [reflexivity|].
    unfold truncate_tokens. simpl. induction (tokens r) as [|x l IH]; simpl.
    + constructor.
    + constructor; [|exact IH]. repeat split. apply List.firstn_le_length.
Qed.

Lemma is_chain_id_numeral (k : N) : is_chain_id (N_toString k) = true.
Proof.
  unfold is_chain_id. rewrite numeral_parses. unfold N_toString.
  rewrite String.eqb_refl, andb_true_r. apply Z.leb_le, N2Z.is_nonneg.
Qed.

(** X7. [tokens-one-chain] answers with tokens only for a chain given by the
    decimal numeral of its id. In every state the process can reach, an
    invocation whose [chain] is anything else (a chain key such as [eth], a
    numeral with a sign or a leading zero, no chain at all) finds nothing in
    the cache, makes the call to the remote service, throws in its [try]
    block and returns the error envelope; the cache is left as it was. *)
Theorem tokens_one_chain_needs_chain_id (chain : option string) (w : world) :
  reachable w ->
  is_chain_id (property_key chain) = false ->
  cache w !! tokens_one_chain_key chain = None /\
  exists message,
    invoke (TokensOneChain chain) w =
      (Returned (text_catch "Failed to get tokens" message),
       World (cache w) (clock w + latency sdk (length (calls w)))
         (calls w ++ [Call_getTokens (tokens_one_chain_request chain)])%list).
Proof.
  intros Hw Hid.
  assert (Hnone : forall r, tokens_get (property_key chain) r = None).
  { intros r. destruct (tokens_get _ r) as [l|] eqn:Hget; [|reflexivity].
    apply tokens_get_numeral in Hget as [k Hk].
    rewrite Hk, is_chain_id_numeral in Hid. discriminate Hid. }
  assert (Hcache : cache w !! tokens_one_chain_key chain = None).
  { destruct (cache w !! tokens_one_chain_key chain) as [e|] eqn:E; [|reflexivity].
    destruct (reachable_cache_sound w Hw chain e E) as (n & r & upstream & _ & _ & Hget & _).
    now rewrite Hnone in Hget. }
  split; [exact Hcache|].
  simpl. unfold tokens_one_chain_handler, text_tool, text_try, try_catch,
    tokens_one_chain_body, bind, NodeCache_get.
  rewrite Hcache. simpl. unfold await. simpl.
  destruct (getTokens sdk _ _) as [r|m]; [|eauto].
  unfold tokens_slice. rewrite Hnone. simpl. eauto.
Qed.

(** ** The cache: what an invocation leaves alone *)

Lemma lookup_tool_of (t : tool_call) :
  uses_cache t = true -> exists l, t = lookup_tool l.
Proof.
  destruct t; intros U; try discriminate U;
    [now exists LookupChains | now exists (LookupTokens chain)
    | now exists (LookupToken chain token)].
Qed.

(** X4. A tool invocation touches no cache entry but its own: the entry
    under every key other than the key of the lookup the tool makes, if it
    makes one, is after the invocation what it was before. *)
Theorem invoke_keeps_other_keys (t : tool_call) (w : world) (k : string) :
  (forall l, t = lookup_tool l -> k <> cache_key l) ->
  cache (snd (invoke t w)) !! k = cache w !! k.
Proof.
  intros Hk. destruct (uses_cache t) eqn:U.
  - destruct (lookup_tool_of t U) as [l ->]. specialize (Hk l eq_refl).
    rewrite invoke_lookup_tool, text_tool_world, lookup_body_getOrCompute.
    destruct (getOrCompute_cases (cache_key l) (lookup_ttl l) (lookup_compute l) w)
      as [(e & E & X & T & Hhit)|(wb & Hcalls & Hclock & Hcache & Hmiss)].
    + now rewrite Hhit.
    + rewrite Hmiss. destruct (lookup_compute_once l wb) as (o & Ho & _).
      rewrite Ho.
      assert (Hwb : cache wb !! k = cache w !! k).
      { destruct Hcache as [->| ->]; [reflexivity|]. now apply lookup_delete_ne. }
      destruct o as [v|m]; simpl; [|exact Hwb].
      rewrite lookup_insert_ne by congruence. exact Hwb.
  - destruct (invoke_cache_free t U (calls w)) as (o & d & made & H).
    now rewrite (H w eq_refl).
Qed.

Lemma text_tool_body (prefix : string) (body : M value) (w w' : world) :
  body w = body w' -> text_tool prefix body w = text_tool prefix body w'.
Proof.
  intros H. unfold text_tool, text_try, try_catch, bind. now rewrite H.
Qed.

(** X5. An entry that has expired is as good as no entry: a cached lookup
    that finds one answers as it would if the entry were not there, so it
    makes its call to the remote service and never serves the stale value;
    and when that call, or the slicing of its answer, fails, the tool
    answers with its error envelope and the stale entry is gone from the
    cache. *)
Theorem expired_entry_not_served (l : cached_lookup) (w : world) (e : cache_entry) :
  cache w !! cache_key l = Some e ->
  expired (clock w) e = true ->
  invoke (lookup_tool l) w =
    invoke (lookup_tool l) (World (delete (cache_key l) (cache w)) (clock w) (calls w)) /\
  calls (snd (invoke (lookup_tool l) w)) = (calls w ++ [lookup_call l])%list /\
  (forall message,
      fst (lookup_body l w) = Thrown message ->
      fst (invoke (lookup_tool l) w) =
        Returned (text_catch (failure_prefix (lookup_tool l)) message) /\
      cache (snd (invoke (lookup_tool l) w)) !! cache_key l = None).
Proof.
  intros E X.
  set (wd := World (delete (cache_key l) (cache w)) (clock w) (calls w)).
  assert (Hw : lookup_body l w =
            match lookup_compute l wd with
            | (Returned v, w') =>
                (Returned v,
                 World (<[cache_key l :=
                            CacheEntry v (clock w' + lookup_ttl l * 1000)]> (cache w'))
                   (clock w') (calls w'))
            | (Thrown m, w') => (Thrown m, w')
            end).
  { rewrite lookup_body_getOrCompute, (getOrCompute_expired _ _ _ w e E X).
    now rewrite lookup_ttl_positive. }
  assert (Hwd : lookup_body l wd = lookup_body l w).
  { rewrite Hw, lookup_body_getOrCompute.
    unfold getOrCompute, bind, NodeCache_get. simpl.
    rewrite lookup_delete_eq. simpl. rewrite lookup_ttl_positive.
    destruct (lookup_compute l wd) as [[v|m] w']; reflexivity. }
  destruct (lookup_compute_once l wd) as (o & Ho & _). rewrite Ho in Hw.
  split; [|split].
  - rewrite !invoke_lookup_tool. apply text_tool_body. now rewrite Hwd.
  - rewrite invoke_lookup_tool, text_tool_world, Hw. now destruct o.
  - intros message Hm. rewrite Hw in Hm.
    destruct o as [v|m]; [discriminate Hm|]. simpl in Hm. injection Hm as ->.
    rewrite invoke_lookup_tool. unfold text_tool, text_try, try_catch, bind.
    rewrite Hw. simpl. split; [reflexivity|]. apply lookup_delete_eq.
Qed.

(** X16. Two cached lookups whose keys coincide share one entry. After a
    lookup that returned a value, a lookup with other arguments but the same
    key (the token [c] of the chain [a-b] and the token [b-c] of the chain
    [a]), made while the entry has not expired, makes no call to the remote
    service and is answered with the value of the first: the tool returns
    the data of another token. *)
Theorem colliding_keys_share_entry (l l' : cached_lookup) (w0 w1 : world) (v : value) :
  cache_key l = cache_key l' ->
  lookup_body l w0 = (Returned v, w1) ->
  exists e,
    cache w1 !! cache_key l = Some e /\ entry_value e = v /\
    (calls w1 <> calls w0 -> entry_expiry e = (clock w1 + lookup_ttl l * 1000)%N) /\
    forall dt,
      expired (clock w1 + dt) e = false ->
      invoke (lookup_tool l') (later dt w1) =
        (Returned (Content (json_text (safeStringify v))), later dt w1).
Proof.
  intros Hkey H. destruct (lookup_returned l w0 w1 v H) as (e & E & Hv & T & Hhow).
  exists e. split; [assumption|]. split; [assumption|]. split.
  - intros Hne. destruct Hhow as [[-> _]|[_ Hexp]]; [contradiction | assumption].
  - intros dt X. rewrite invoke_lookup_tool. apply text_tool_returned.
    rewrite lookup_body_getOrCompute, <- Hv, <- Hkey.
    apply getOrCompute_hit; [assumption | assumption | now rewrite Hv].
Qed.

(** ** What the handlers make of the answers *)

Lemma text_tool_thrown (prefix : string) (body : M value) (w w1 : world)
    (message : string) :
  body w = (Thrown message, w1) ->
  text_tool prefix body w = (Returned (text_catch prefix message), w1).
Proof.
  intros H. unfold text_tool, text_try, try_catch, bind. now rewrite H.
Qed.

Lemma gas_body_outcome (url : string) (w : world) :
  gas_body url w =
    (match fetch sdk (length (calls w)) url lifi_headers with
     | Thrown m => Thrown m
     | Returned res =>
         if response_ok res then response_json res
         else match response_text res with
              | Returned text =>
                  Thrown ("HTTP " +:+ Number_toString (response_status res)
                          +:+ ": " +:+ text)
              | Thrown m => Thrown m
              end
     end,
     World (cache w) (clock w + latency sdk (length (calls w)))
       (calls w ++ [Call_fetch url lifi_headers])%list).
Proof.
  unfold gas_body, check_ok, bind, await.
  destruct (fetch sdk _ _ _) as [res|m]; [|reflexivity].
  destruct (response_ok res); [reflexivity|].
  unfold lift. now destruct (response_text res).
Qed.

Lemma fetch_tool_body (t : tool_call) :
  fetch_tool t = true ->
  exists url, invoke t = text_tool (failure_prefix t) (gas_body url).
Proof.
  destruct t; intros H; try discriminate H; eexists; reflexivity.
Qed.

(** X10. The three tools that ask the HTTP service directly
    ([quote-to-amount], [gas-price], [gas-prices]) make one request, with
    the integrator and API-key headers, and answer with: the error envelope
    carrying the rejection when the request fails; the error envelope
    `prefix: HTTP status: body' when the response is not ok, whatever its
    JSON body would have been; and otherwise the text of the parsed JSON
    body, or the error envelope when the body does not parse. *)
Theorem fetch_tools_report_http_errors (t : tool_call) (w : world) :
  fetch_tool t = true ->
  exists url,
    snd (invoke t w) =
      World (cache w) (clock w + latency sdk (length (calls w)))
        (calls w ++ [Call_fetch url lifi_headers])%list /\
    fst (invoke t w) =
      Returned
        match fetch sdk (length (calls w)) url lifi_headers with
        | Thrown message => text_catch (failure_prefix t) message
        | Returned res =>
            if response_ok res
            then match response_json res with
                 | Returned data => Content (json_text (safeStringify data))
                 | Thrown message => text_catch (failure_prefix t) message
                 end
            else match response_text res with
                 | Returned text =>
                     text_catch (failure_prefix t)
                       ("HTTP " +:+ Number_toString (response_status res)
                        +:+ ": " +:+ text)
                 | Thrown message => text_catch (failure_prefix t) message
                 end
        end.
Proof.
  intros Ht. destruct (fetch_tool_body t Ht) as [url ->]. exists url.
  pose proof (gas_body_outcome url w) as H.
  destruct (fetch sdk _ _ _) as [res|m];
    [destruct (response_ok res);
     [destruct (response_json res) as [data|m]
     |destruct (response_text res) as [text|m]]|];
    first [ rewrite (text_tool_returned _ _ _ _ _ H)
          | rewrite (text_tool_thrown _ _ _ _ _ H) ];
    now split.
Qed.

Lemma filter_sublist {A : Type} (f : A -> bool) (l : list A) :
  sublist (List.filter f l) l.
Proof.
  induction l as [|x l IH]; simpl; [constructor|].
  destruct (f x); now constructor.
Qed.

(** X11. When both of its calls succeed, [token-balances] keeps, in the
    order the remote service gave them, exactly the balances whose amount is
    a bigint greater than zero (a zero amount, or a balance without an
    amount, is dropped), serialises them with [safeStringify], which does
    not throw on the bigints, and answers with what [JSON.parse] reads back,
    or with the error envelope when it throws. The tokens it asks the
    balances of are those the first answer lists for the chain id. *)
Theorem token_balances_keeps_positive (walletAddress : string) (chainId : number)
    (w : world) (r : TokensResponse) (balances : list JsObject) :
  getTokens sdk (length (calls w)) [("chains", VArray [VNumber chainId])] = Returned r ->
  getTokenBalances sdk (S (length (calls w))) walletAddress
    (tokens_get (Number_toString chainId) r) = Returned balances ->
  exists kept text,
    sublist kept balances /\
    (forall b,
        In b kept <->
        In b balances /\ exists z, get_property "amount" b = VBigInt z /\ (0 < z)%Z) /\
    safeStringify (VArray (map VObject kept)) = JText text /\
    invoke (TokenBalances walletAddress chainId) w =
      (Returned match JSON_parse text with
                | Returned v => StructuredContent [("balances", v)]
                | Thrown message => error_catch "Failed to get token balances" message
                end,
       World (cache w)
         (clock w + latency sdk (length (calls w)) + latency sdk (S (length (calls w))))
         (calls w
          ++ [Call_getTokens [("chains", VArray [VNumber chainId])];
              Call_getTokenBalances walletAddress
                (tokens_get (Number_toString chainId) r)])%list).
Proof.
  intros Hr Hb.
  pose proof (serialize_safely (VArray (map VObject (List.filter amount_positive balances))) "")
    as Hs.
  destruct (safeStringify (VArray (map VObject (List.filter amount_positive balances))))
    as [text| |m] eqn:Htext;
    unfold safeStringify, JSON_stringify in Htext; simpl in Htext, Hs;
    rewrite Htext in Hs; simpl in Hs; [|discriminate Hs|contradiction].
  exists (List.filter amount_positive balances), text.
  split; [apply filter_sublist|]. split; [|split].
  - intros b. rewrite filter_In. unfold amount_positive.
    split; intros [Hin H]; (split; [exact Hin|]).
    + destruct (get_property "amount" b); try discriminate H.
      eexists. split; [reflexivity|]. now apply Z.ltb_lt.
    + destruct H as (z & -> & Hz). now apply Z.ltb_lt.
  - unfold safeStringify, JSON_stringify. simpl. exact Htext.
  - simpl. unfold token_balances_handler, token_balances_try, try_catch, bind, await.
    rewrite Hr. simpl.
    rewrite length_app, Nat.add_1_r, Hb.
    unfold safeStringify, JSON_stringify. simpl. rewrite Htext. simpl.
    unfold lift. rewrite <- app_assoc. now destruct (JSON_parse text).
Qed.

Lemma multicall_answers (tokens : list (string * number * string)) :
  forall n,
    match
      all_answers n
        (map snd
           (map (fun t =>
                   (Call_getToken (VNumber (snd (fst t))) (fst (fst t)),
                    fun n => getToken sdk n (VNumber (snd (fst t))) (fst (fst t))))
              tokens))
    with
    | Returned objs =>
        let pairs := map (fun p => (fst p, snd (snd p))) (combine objs tokens) in
        length pairs = length tokens /\
        forall i t,
          tokens !! i = Some t ->
          exists o,
            getToken sdk (n + i) (VNumber (snd (fst t))) (fst (fst t)) = Returned o /\
            pairs !! i = Some (o, snd t)
    | Thrown message =>
        exists i t,
          tokens !! i = Some t /\
          getToken sdk (n + i) (VNumber (snd (fst t))) (fst (fst t)) = Thrown message
    end.
Proof.
  induction tokens as [|x tokens IH]; intros n; simpl.
  - split; [reflexivity|]. intros i t H. discriminate H.
  - destruct (getToken sdk n _ _) as [o|m] eqn:Ho.
    + specialize (IH (S n)). destruct (all_answers _ _) as [objs|m]; simpl.
      * destruct IH as [Hlen Hi]. split; [now rewrite Hlen|].
        intros [|i] t H; simpl in H.
        -- injection H as <-. exists o. now rewrite Nat.add_0_r.
        -- destruct (Hi i t H) as (o' & Ho' & Hp). exists o'.
           now rewrite Nat.add_succ_r.
      * destruct IH as (i & t & Ht & Hm). exists (S i), t.
        now rewrite Nat.add_succ_r.
    + exists 0, x. now rewrite Nat.add_0_r.
Qed.

Lemma multicall_body_outcome (ownerAddress : string)
    (tokens : list (string * number * string)) (w : world) :
  let n := length (calls w) in
  let asked := map (fun t => Call_getToken (VNumber (snd (fst t))) (fst (fst t))) tokens in
  token_allowance_multicall_body ownerAddress tokens w =
    match
      all_answers n
        (map snd
           (map (fun t =>
                   (Call_getToken (VNumber (snd (fst t))) (fst (fst t)),
                    fun n => getToken sdk n (VNumber (snd (fst t))) (fst (fst t))))
              tokens))
    with
    | Returned objs =>
        let pairs := map (fun p => (fst p, snd (snd p))) (combine objs tokens) in
        (getTokenAllowanceMulticall sdk (n + length tokens) ownerAddress pairs,
         World (cache w)
           (clock w + longest_latency n (length tokens)
            + latency sdk (n + length tokens))
           (calls w ++ asked
            ++ [Call_getTokenAllowanceMulticall ownerAddress pairs])%list)
    | Thrown message =>
        (Thrown message,
         World (cache w) (clock w + longest_latency n (length tokens))
           (calls w ++ asked)%list)
    end.
Proof.
  cbv zeta. unfold token_allowance_multicall_body, bind, await_all, await.
  destruct (all_answers _ _) as [objs|m]; simpl;
    rewrite ?length_app, !length_map, map_map, <- ?app_assoc; reflexivity.
Qed.

(** X12. [token-allowance-multicall] asks for every token at once, in the
    order of its argument. When one of these calls is rejected, the
    multicall is not made and the handler answers with the error envelope
    of a rejection. When all succeed, the multicall is made once, with as
    many entries as the argument has, the i-th pairing the object the
    remote service answered for the i-th token with the i-th spender; the
    handler answers with the text of its result, or with the error envelope
    when it is rejected. *)
Theorem multicall_pairs_tokens_with_spenders (ownerAddress : string)
    (tokens : list (string * number * string)) (w : world) :
  let n := length (calls w) in
  let asked := map (fun t => Call_getToken (VNumber (snd (fst t))) (fst (fst t))) tokens in
  let result := invoke (TokenAllowanceMulticall ownerAddress tokens) w in
  (exists i t message,
      tokens !! i = Some t /\
      getToken sdk (n + i) (VNumber (snd (fst t))) (fst (fst t)) = Thrown message /\
      fst result =
        Returned (text_catch "Failed to get token allowance multicall" message) /\
      calls (snd result) = (calls w ++ asked)%list) \/
  (exists pairs,
      length pairs = length tokens /\
      (forall i t,
          tokens !! i = Some t ->
          exists o,
            getToken sdk (n + i) (VNumber (snd (fst t))) (fst (fst t)) = Returned o /\
            pairs !! i = Some (o, snd t)) /\
      calls (snd result) =
        (calls w ++ asked ++ [Call_getTokenAllowanceMulticall ownerAddress pairs])%list /\
      fst result =
        Returned
          match
            getTokenAllowanceMulticall sdk (n + length tokens) ownerAddress pairs
          with
          | Returned v => Content (json_text (safeStringify v))
          | Thrown message =>
              text_catch "Failed to get token allowance multicall" message
          end).
Proof.
  cbv zeta. simpl. unfold token_allowance_multicall_handler.
  pose proof (multicall_answers tokens (length (calls w))) as H.
  pose proof (multicall_body_outcome ownerAddress tokens w) as Hbody.
  cbv zeta in Hbody.
  destruct (all_answers _ _) as [objs|m].
  - right. cbv zeta in H. destruct H as [Hlen Hi].
    exists (map (fun p => (fst p, snd (snd p))) (combine objs tokens)).
    split; [exact Hlen|]. split; [exact Hi|].
    destruct (getTokenAllowanceMulticall sdk _ _ _) as [v|m];
      first [ rewrite (text_tool_returned _ _ _ _ _ Hbody)
            | rewrite (text_tool_thrown _ _ _ _ _ Hbody) ];
      now split.
  - left. destruct H as (i & t & Ht & Hm). exists i, t, m.
    rewrite (text_tool_thrown _ _ _ _ _ Hbody). now repeat split.
Qed.

(** ** The stdio server: theorems *)



(** X13. The stdio server serialises with [JSON.stringify(data, null, 2)],
    which throws on a bigint: whenever what the [try] block of a tool
    awaited holds a bigint, at any depth (the amount of a balance, an
    allowance), the handler answers with the error text `prefix: Do not know
    how to serialize a BigInt', although every call to the remote service
    succeeded; otherwise it answers with the indented text of the data. *)
Theorem stdio_bigint_results_fail (t : stdio_call) (w w1 : world) (data : value) :
  stdio_body t w = (Returned data, w1) ->
  stdio_invoke t w =
    (Returned
       (if contains_bigint data
        then text_catch (stdio_prefix t) "Do not know how to serialize a BigInt"
        else Content (json_text (JSON_stringify_space data 2))),
     w1).
Proof.
  intros H. unfold stdio_invoke, stdio_tool, stdio_try, try_catch, bind. rewrite H.
  pose proof (JSON_stringify_space_throws_on_bigint data 2) as Hs.
  unfold throws_on_bigint in Hs. destruct (contains_bigint data).
  - now rewrite Hs.
  - destruct (JSON_stringify_space data 2) as [text| |m]; try reflexivity.
    now destruct (Hs m).
Qed.

(** X14. An allowance the remote service reports never reaches the client of
    the stdio server: when both calls succeed with an allowance, its
    [tokenAllowance] answers `Failed to get token allowance: Do not know how
    to serialize a BigInt', where [token-allowance] of the HTTP server,
    after the same two calls, answers with the digits of the allowance
    between quotes. *)
Theorem stdio_token_allowance_fails (token_address : string) (token_chainId : number)
    (ownerAddress spenderAddress : string) (w : world) (tokenObj : JsObject) (z : Z) :
  getToken sdk (length (calls w)) (VNumber token_chainId) token_address
    = Returned tokenObj ->
  getTokenAllowance sdk (S (length (calls w))) tokenObj ownerAddress spenderAddress
    = Returned (Some z) ->
  fst (stdio_invoke
         (StdioTokenAllowance token_address token_chainId ownerAddress spenderAddress) w)
    = Returned (Content (Some "Failed to get token allowance: Do not know how to serialize a BigInt")) /\
  fst (invoke (TokenAllowance token_address token_chainId ownerAddress spenderAddress) w)
    = Returned (Content (Some (dquote +:+ BigInt_toString z +:+ dquote))) /\
  snd (stdio_invoke
         (StdioTokenAllowance token_address token_chainId ownerAddress spenderAddress) w)
    = snd (invoke (TokenAllowance token_address token_chainId ownerAddress spenderAddress) w).
Proof.
  intros Ht Ha.
  assert (Hbody : token_allowance_body token_address token_chainId ownerAddress
                    spenderAddress w =
                  (Returned (VBigInt z),
                   World (cache w)
                     (clock w + latency sdk (length (calls w))
                      + latency sdk (S (length (calls w))))
                     ((calls w
                       ++ [Call_getToken (VNumber token_chainId) token_address])
                      ++ [Call_getTokenAllowance tokenObj ownerAddress spenderAddress])%list)).
  { unfold token_allowance_body, bind, await. rewrite Ht. simpl.
    now rewrite length_app, Nat.add_1_r, Ha. }
  simpl invoke. unfold token_allowance_handler, stdio_invoke.
  rewrite (text_tool_returned _ _ _ _ _ Hbody).
  unfold stdio_tool, stdio_try, try_catch, bind. simpl stdio_body. rewrite Hbody.
  simpl. unfold safeStringify, JSON_stringify. simpl. rewrite quote_decimal.
  repeat split.
Qed.


(** ** How many calls an invocation makes *)

Ltac count_calls :=
  eexists; split;
    [ simpl; rewrite <- ?app_assoc; reflexivity
    | simpl; rewrite ?length_app, ?length_map; simpl; split; [lia | intros _; lia] ].

(** X6. No handler retries or repeats a call: an invocation adds to the log
    of calls, and adds at most one call, two for [token-balance],
    [token-balances] and [token-allowance], and one for each token and one
    more for [token-allowance-multicall]; a tool that does not go through
    the cache makes at least one call every time it is invoked. *)
Theorem invoke_calls_bounded (t : tool_call) (w : world) :
  exists made,
    calls (snd (invoke t w)) = (calls w ++ made)%list /\
    length made <= calls_bound t /\
    (uses_cache t = false -> 1 <= length made).
Proof.
  destruct (uses_cache t) eqn:U.
  - destruct (lookup_tool_of t U) as [l ->].
    rewrite invoke_lookup_tool, text_tool_world, lookup_body_getOrCompute.
    destruct (getOrCompute_cases (cache_key l) (lookup_ttl l) (lookup_compute l) w)
      as [(e & E & X & T & Hhit)|(wb & Hcalls & Hclock & Hcache & Hmiss)].
    + rewrite Hhit. exists []. simpl. rewrite app_nil_r.
      split; [reflexivity|]. split; [lia | discriminate].
    + rewrite Hmiss. destruct (lookup_compute_once l wb) as (o & Ho & _).
      rewrite Ho, Hcalls. exists [lookup_call l].
      split; [now destruct o|]. split; [destruct l; simpl; lia | discriminate].
  - destruct t as [| | | | | | | | | | | |ownerAddress [|x tokens]| | | |];
      try discriminate U; simpl;
      unfold swap_handler, bridge_handler, quote_try,
        tokens_multiple_chains_handler, tokens_multiple_chains_body,
        tools_handler, tools_body,
        quote_to_amount_handler, quote_to_amount_body,
        connections_handler, connections_body,
        token_balance_handler, token_balance_try,
        token_balances_handler, token_balances_try,
        token_allowance_handler, token_allowance_body,
        token_allowance_multicall_handler, token_allowance_multicall_body,
        routes_handler, routes_body, status_handler, status_body,
        gas_price_handler, gas_prices_handler, gas_body, check_ok,
        text_tool, text_try, text_of, parse_of,
        try_catch, bind, await, await_all, lift, ret, throw;
      simpl;
      repeat match goal with
             | |- context [match ?x with _ => _ end] =>
                 lazymatch x with
                 | context [match _ with _ => _ end] => fail
                 | _ => destruct x
                 end
             | |- context [if ?x then _ else _] =>
                 lazymatch x with
                 | context [match _ with _ => _ end] => fail
                 | _ => destruct x
                 end
             end;
      count_calls.
Qed.

(** ** The registry and the router: theorems *)

Lemma is_uuid_plain (sessionId : string) :
  is_uuid sessionId = true -> inherited sessionId = false /\ sessionId <> "".
Proof.
  intros H. split.
  - destruct (inherited sessionId) eqn:E; [|reflexivity].
    unfold inherited, Object_prototype_names in E. simpl in E.
    repeat (apply orb_true_iff in E as [E|E];
            [apply String.eqb_eq in E; subst; discriminate H|]).
    discriminate E.
  - intros ->. discriminate H.
Qed.

Lemma transports_get_own (sessionId : string) (g : gateway) (t : nat) :
  transports g !! sessionId = Some t -> transports_get sessionId g = Own t.
Proof. unfold transports_get. now intros ->. Qed.

Lemma transports_get_missing (sessionId : string) (g : gateway) :
  transports g !! sessionId = None -> inherited sessionId = false ->
  transports_get sessionId g = Missing.
Proof. unfold transports_get. now intros -> ->. Qed.

(** Neither router ever touches the registry. *)
Lemma post_mcp_transports (req : request) (g : gateway) :
  transports (snd (post_mcp req g)) = transports g.
Proof.
  unfold post_mcp.
  destruct (string_truthy _ && slot_truthy _); [reflexivity|].
  now destruct (negb _ && isInitializeRequest _).
Qed.

Lemma handleSessionRequest_state (req : request) (g : gateway) :
  snd (handleSessionRequest req g) = g.
Proof. unfold handleSessionRequest. now destruct (negb _ || negb _). Qed.

Lemma onclose_unregistered (t : nat) (g : gateway) :
  match sessionIds g !! t with
  | Some sessionId => transports g !! sessionId = None
  | None => True
  end ->
  onclose t g = g.
Proof.
  unfold onclose. destruct (sessionIds g !! t) as [sessionId|]; [|reflexivity].
  intros H. simpl. destruct (negb _); [|reflexivity].
  rewrite delete_id by assumption. now destruct g.
Qed.

(** An identifier that no later event registers stays out of the registry. *)
Lemma step_keeps_unregistered (sessionId : string) (e : event) (g : gateway) :
  registers sessionId e = false ->
  transports g !! sessionId = None ->
  transports (step g e) !! sessionId = None.
Proof.
  intros He Hg. destruct e as [req|req|t sessionId'|t]; simpl.
  - now rewrite post_mcp_transports.
  - now rewrite handleSessionRequest_state.
  - unfold session_initialized. destruct (String.eqb sessionId' ""); [assumption|].
    simpl. rewrite lookup_insert_ne; [assumption|].
    intros ->. simpl in He. now rewrite String.eqb_refl in He.
  - unfold onclose. destruct (string_truthy _); [|assumption].
    simpl. destruct (decide (property_key (sessionIds g !! t) = sessionId)) as [->|Hne].
    + apply lookup_delete_eq.
    + now rewrite lookup_delete_ne.
Qed.

Lemma run_keeps_unregistered (sessionId : string) (events : list event) :
  forall g,
    existsb (registers sessionId) events = false ->
    transports g !! sessionId = None ->
    transports (run events g) !! sessionId = None.
Proof.
  induction events as [|e events IH]; intros g He Hg; [assumption|].
  simpl in He. apply orb_false_iff in He as [He1 He2].
  simpl. apply IH; [assumption|]. now apply step_keeps_unregistered.
Qed.

(** C2. A session id returned by a successful initialization (an identifier
    of [randomUUID]'s format) is found at once; once the transport's close
    notification has run, the lookup fails, and keeps failing whatever
    requests arrive and whatever other sessions open and close; a second
    close notification, and the close of a transport that has no session or
    whose session is not registered, change nothing. *)
Theorem session_registry_lifecycle (g : gateway) (t : nat) (sessionId : string) :
  is_uuid sessionId = true ->
  let g1 := session_initialized t sessionId g in
  let g2 := onclose t g1 in
  transports_get sessionId g1 = Own t /\
  transports_get sessionId g2 = Missing /\
  (forall events,
      existsb (registers sessionId) events = false ->
      transports_get sessionId (run events g2) = Missing) /\
  onclose t g2 = g2 /\
  (forall t',
      match sessionIds g !! t' with
      | Some sessionId' => transports g !! sessionId' = None
      | None => True
      end ->
      onclose t' g = g).
Proof.
  intros Huuid. destruct (is_uuid_plain _ Huuid) as [Hplain Hne].
  assert (Hg1 : session_initialized t sessionId g =
                Gateway (<[sessionId := t]> (transports g))
                  (<[t := sessionId]> (sessionIds g)) (constructed g) (drawn g)).
  { unfold session_initialized. apply String.eqb_neq in Hne. now rewrite Hne. }
  assert (Hg2 : onclose t (session_initialized t sessionId g) =
                Gateway (delete sessionId (<[sessionId := t]> (transports g)))
                  (<[t := sessionId]> (sessionIds g)) (constructed g) (drawn g)).
  { rewrite Hg1. unfold onclose. simpl. rewrite lookup_insert_eq. simpl.
    apply String.eqb_neq in Hne. now rewrite Hne. }
  cbv zeta. rewrite Hg2, Hg1.
  assert (Hgone : (delete sessionId (<[sessionId := t]> (transports g)) : gmap string nat)
                    !! sessionId = None) by apply lookup_delete_eq.
  split; [|split; [|split; [|split]]].
  - apply transports_get_own. simpl. apply lookup_insert_eq.
  - now apply transports_get_missing.
  - intros events Hev. apply transports_get_missing; [|assumption].
    now apply run_keeps_unregistered.
  - apply onclose_unregistered. simpl. now rewrite lookup_insert_eq.
  - intros t'. apply onclose_unregistered.
Qed.



(** X1. [transports] is a plain object: a session header that is a property
    name of [Object.prototype], under which no session is registered, passes
    the test [transports[sessionId]] of both routers. The request is then
    neither handed to a transport nor rejected with status 400: the handler
    throws, and the gateway's state is unchanged. *)
Theorem inherited_session_id_throws (req : request) (g : gateway) (sessionId : string) :
  mcp_session_id req = Some sessionId ->
  inherited sessionId = true ->
  transports g !! sessionId = None ->
  post_mcp req g = (Uncaught "transport.handleRequest is not a function", g) /\
  handleSessionRequest req g =
    (Uncaught "transport.handleRequest is not a function", g).
Proof.
  intros Hs Hi Ht.
  assert (Hne : String.eqb sessionId "" = false).
  { apply String.eqb_neq. intros ->. discriminate Hi. }
  unfold post_mcp, handleSessionRequest, transports_get. rewrite Hs. simpl.
  now rewrite Hne, Ht, Hi.
Qed.

(** ** The registry while the gateway serves *)

Lemma post_mcp_sessionIds (req : request) (g : gateway) :
  sessionIds (snd (post_mcp req g)) = sessionIds g.
Proof.
  unfold post_mcp.
  destruct (string_truthy _ && slot_truthy _); [reflexivity|].
  now destruct (negb _ && isInitializeRequest _).
Qed.

Lemma serving_registry_consistent (g : gateway) :
  serving g -> registry_consistent g.
Proof.
  induction 1 as [|req g _ [IH1 IH2]|req g _ IH|t sessionId g _ [IH1 IH2] Hnew Hfresh
                 |t g _ [IH1 IH2]].
  - split; [intros sessionId t H | intros t t' sessionId H];
      simpl in H; now rewrite lookup_empty in H.
  - unfold registry_consistent.
    rewrite post_mcp_transports, post_mcp_sessionIds. now split.
  - now rewrite handleSessionRequest_state.
  - assert (Hother : forall sessionId' t',
              transports g !! sessionId' = Some t' ->
              <[t := sessionId]> (sessionIds g) !! t' = Some sessionId' /\
              sessionId' <> "").
    { intros sessionId' t' H. destruct (IH1 _ _ H) as [Hs Hne].
      split; [|assumption]. rewrite lookup_insert_ne; [assumption|].
      intros ->. congruence. }
    split.
    + intros sessionId' t'. unfold session_initialized.
      destruct (String.eqb sessionId "") eqn:E; simpl; [apply Hother|].
      destruct (decide (sessionId' = sessionId)) as [->|Hne].
      * rewrite lookup_insert_eq. intros [= <-]. rewrite lookup_insert_eq.
        split; [reflexivity|]. now apply String.eqb_neq.
      * rewrite lookup_insert_ne by congruence. apply Hother.
    + assert (Hids : sessionIds (session_initialized t sessionId g) =
                <[t := sessionId]> (sessionIds g)).
      { unfold session_initialized. now destruct (String.eqb sessionId ""). }
      rewrite Hids. intros a b i Ha Hb.
      destruct (decide (a = t)) as [->|Hat]; destruct (decide (b = t)) as [->|Hbt];
        try reflexivity.
      * rewrite lookup_insert_eq in Ha. rewrite lookup_insert_ne in Hb by congruence.
        injection Ha as <-. now destruct (Hfresh b).
      * rewrite lookup_insert_eq in Hb. rewrite lookup_insert_ne in Ha by congruence.
        injection Hb as <-. now destruct (Hfresh a).
      * rewrite lookup_insert_ne in Ha, Hb by congruence. eauto.
  - unfold onclose. destruct (string_truthy _); [|now split].
    split; simpl; [|assumption].
    intros sessionId t' H. apply lookup_delete_Some in H as [_ H]. now apply IH1.
Qed.

(** X8. While the gateway serves, the registry holds an identifier only for
    the transport that was given it; so when a transport closes, no
    identifier is left that leads to it, whatever happened before, and the
    sessions of all other transports stay registered under their
    identifiers. *)
Theorem closing_unregisters_only_the_session (g : gateway) (t : nat) :
  serving g ->
  (forall sessionId t',
      transports g !! sessionId = Some t' ->
      sessionIds g !! t' = Some sessionId /\ sessionId <> "") /\
  (forall sessionId, transports (onclose t g) !! sessionId <> Some t) /\
  (forall sessionId t',
      t' <> t ->
      transports g !! sessionId = Some t' ->
      transports (onclose t g) !! sessionId = Some t').
Proof.
  intros Hg. destruct (serving_registry_consistent g Hg) as [H1 H2].
  split; [exact H1|]. unfold onclose.
  destruct (sessionIds g !! t) as [own|] eqn:Hown; simpl.
  - destruct (String.eqb own "") eqn:E; simpl.
    + apply String.eqb_eq in E. subst own. split.
      * intros sessionId H. destruct (H1 _ _ H) as [Hs Hne]. congruence.
      * now intros sessionId t' _ H.
    + split.
      * intros sessionId H. apply lookup_delete_Some in H as [Hne H].
        destruct (H1 _ _ H) as [Hs _]. congruence.
      * intros sessionId t' Ht' H. rewrite lookup_delete_ne; [assumption|].
        intros <-. destruct (H1 _ _ H) as [Hs _]. now destruct Ht', (H2 _ _ _ Hs Hown).
  - split.
    + intros sessionId H. destruct (H1 _ _ H) as [Hs _]. congruence.
    + now intros sessionId t' _ H.
Qed.


End Server.

(** * Examples

    The development instantiated: integers for the runtime's numbers, and a
    small remote service. *)

Arguments VUndefined {number}.
Arguments VNull {number}.
Arguments VBool {number} b.
Arguments VNumber {number} n.
Arguments VBigInt {number} z.
Arguments VString {number} s.
Arguments VArray {number} items.
Arguments VObject {number} props.
Arguments Content {number} text.
Arguments StructuredContent {number} fields.
Arguments World {number} cache clock calls.
Arguments Handled {number} transport.
Arguments Json {number} status payload.
Arguments Sent {number} status text.
Arguments Uncaught {number} message.
Arguments Call_getChains {number}.
Arguments Call_getTokens {number} params.
Arguments Call_getToken {number} chain token.
Arguments Call_fetch {number} url headers.

Module Example.

Definition Number_toString (n : Z) : string := BigInt_toString n.
Definition Number_isFinite (_ : Z) : bool := true.
Definition Number_truthy (n : Z) : bool := negb (Z.eqb n 0).

(** A request is an initialization request when its [method] is
    [initialize]. *)
Definition isInitializeRequest (v : value Z) : bool :=
  match v with
  | VObject props =>
      match get_property Z "method" props with
      | VString m => String.eqb m "initialize"
      | _ => false
      end
  | _ => false
  end.

Definition randomUUID (n : nat) : string :=
  if Nat.even n then "6f1d2c3a-0b7e-4c55-9a31-5d2e8f40a7c1"
  else "c2a9e7b4-3f68-4d10-8e5b-19f0a6d3b2e8".

(** Thirty tokens, numbered. *)
Definition thirty_tokens : list (value Z) :=
  map (fun i => VObject [("symbol", VString "T"); ("index", VNumber (Z.of_nat i))])
    (seq 0 30).

(** A service that lists one chain and its thirty tokens, knows one token,
    and rejects everything else. *)
Definition sdk : Sdk Z :=
  {| getQuote := fun _ _ => Thrown "quote unavailable";
     getChains := fun _ => Returned [VObject [("id", VNumber 1%Z); ("key", VString "eth")]];
     getTokens := fun _ _ => Returned {| tokens := [(1%N, thirty_tokens)] |};
     getToken := fun _ _ _ =>
       Returned [("symbol", VString "USDC"); ("decimals", VNumber 6%Z)];
     getTools := fun _ _ => Thrown "tools unavailable";
     fetch := fun _ _ _ => Thrown "fetch failed";
     getConnections := fun _ _ => Thrown "connections unavailable";
     getTokenBalance := fun _ _ _ => Thrown "network down";
     getTokenBalances := fun _ _ _ => Thrown "network down";
     getTokenAllowance := fun _ _ _ _ => Returned (Some (2 ^ 64)%Z);
     getTokenAllowanceMulticall := fun _ _ _ => Thrown "network down";
     getStatus := fun _ _ => Returned (VObject [("status", VString "DONE")]);
     getRoutes := fun _ _ => Thrown "routes unavailable";
     latency := fun _ => 20%N |}.

(** A parser that knows the three literals. *)
Definition JSON_parse (s : string) : outcome (value Z) :=
  if String.eqb s "null" then Returned VNull
  else if String.eqb s "true" then Returned (VBool true)
  else if String.eqb s "false" then Returned (VBool false)
  else Thrown "Unexpected token".

Definition URLSearchParams_toString (params : list (string * string)) : string :=
  String.concat "&" (map (fun p => fst p +:+ "=" +:+ snd p) params).

Definition run_tool (t : tool_call Z) (w : world Z) : outcome (tool_result Z) * world Z :=
  invoke Z Number_toString Number_isFinite Number_truthy sdk JSON_parse
    URLSearchParams_toString None t w.

Definition run_lookup (l : cached_lookup) (w : world Z) : outcome (value Z) * world Z :=
  lookup_body Z Number_truthy sdk l w.

(** No session, no transport. *)
Definition no_sessions : gateway := Gateway ∅ ∅ 0 0.

(** One session, [S1], on transport 0. *)
Definition one_session : gateway := Gateway {[ "S1" := 0%nat ]} {[ 0%nat := "S1" ]} 1 1.


Definition call_body : value Z :=
  VObject [("jsonrpc", VString "2.0"); ("method", VString "tools/call")].

Definition post (sessionId : option string) (payload : value Z) (g : gateway)
    : response Z * gateway :=
  post_mcp Z isInitializeRequest {| mcp_session_id := sessionId; body := payload |} g.

Definition get_or_delete (sessionId : option string) (g : gateway)
    : response Z * gateway :=
  handleSessionRequest Z {| mcp_session_id := sessionId; body := VUndefined |} g.

End Example.

(** The scenario of the specification: two POSTs of session [S1] reach the
    same transport; a POST of session [S2], never created, is rejected and
    creates nothing. *)
Example post_scenario :
  Example.post (Some "S1") Example.call_body Example.one_session
    = (Handled 0, Example.one_session) /\
  Example.post (Some "S2") Example.call_body Example.one_session
    = (Json 400 (bad_request Z), Example.one_session).
Proof. split; reflexivity. Qed.

(** A bigint of 65 bits among the properties of an object. *)
Example safeStringify_two_to_64 :
  safeStringify Z Example.Number_toString Example.Number_isFinite
    (VObject [("amount", VBigInt (2 ^ 64)); ("decimals", VNumber 6%Z)])
  = JText ("{" +:+ dquote +:+ "amount" +:+ dquote +:+ ":" +:+ dquote
           +:+ "18446744073709551616" +:+ dquote +:+ ","
           +:+ dquote +:+ "decimals" +:+ dquote +:+ ":6}").
Proof. reflexivity. Qed.

(** ** The theorems at concrete inputs *)



(** C2 at work. *)
Lemma session_registry_lifecycle_witness :
  is_uuid (Example.randomUUID 0) = true /\
  transports_get (Example.randomUUID 0)
    (session_initialized 0 (Example.randomUUID 0) Example.no_sessions) = Own 0 /\
  transports_get (Example.randomUUID 0)
    (onclose 0 (session_initialized 0 (Example.randomUUID 0) Example.no_sessions))
    = Missing.
Proof.
  split; [reflexivity|].
  pose proof (session_registry_lifecycle Z Example.isInitializeRequest
                Example.no_sessions 0%nat (Example.randomUUID 0) eq_refl) as H.
  cbv zeta in H. split; [exact (proj1 H) | exact (proj1 (proj2 H))].
Defined.



(** C7 at work: the two lookups that do share a key. *)
Lemma cache_keys_distinct_witness :
  cache_key (LookupTokens None) = cache_key (LookupTokens (Some "all")) /\
  or_else None "all" = or_else (Some "all") "all".
Proof.
  split; [reflexivity|].
  exact (cache_keys_distinct (LookupTokens None) (LookupTokens (Some "all")) eq_refl).
Defined.

(** C7 as stated fails: two [token] lookups with different arguments
    build the same key, and so do [tokens-one-chain] without a chain and
    with the chain [all]. *)
Lemma cache_keys_collide :
  LookupToken "a-b" "c" <> LookupToken "a" "b-c" /\
  cache_key (LookupToken "a-b" "c") = cache_key (LookupToken "a" "b-c") /\
  LookupTokens None <> LookupTokens (Some "all") /\
  cache_key (LookupTokens None) = cache_key (LookupTokens (Some "all")).
Proof. repeat split; discriminate. Qed.

(** C8 at work, on an object holding 2^64. *)
Lemma safeStringify_exact_bigints_witness :
  exists text,
    safeStringify Z Example.Number_toString Example.Number_isFinite
      (VObject [("amount", VBigInt (2 ^ 64))]) = JText text.
Proof.
  apply (safeStringify_exact_bigints Z Example.Number_toString Example.Number_isFinite
           (VObject [("amount", VBigInt (2 ^ 64))])).
  discriminate.
Defined.



(** C6 at work: two status requests in a row, two calls, nothing cached. *)
Lemma live_state_never_cached_witness :
  let t := Status Z "0xabc" None None None in
  let w1 := snd (Example.run_tool t (started Z 0)) in
  live_state Z t = true /\
  cache Z w1 = ∅ /\
  exists c made1 made2,
    first_call Z Example.Number_toString None t = Some c /\
    calls Z w1 = (calls Z (started Z 0) ++ c :: made1)%list /\
    calls Z (snd (Example.run_tool t w1)) = (calls Z w1 ++ c :: made2)%list.
Proof.
  cbv zeta. split; [reflexivity|].
  destruct (live_state_never_cached Z Example.Number_toString Example.Number_isFinite
              Example.Number_truthy Example.sdk Example.JSON_parse
              Example.URLSearchParams_toString None
              (Status Z "0xabc" None None None) (started Z 0) eq_refl)
    as (Hcache & _ & Hcalls).
  split; [exact Hcache | exact Hcalls].
Defined.

(** C9 at work: of thirty tokens upstream, twenty-five are returned. *)
Lemma token_lists_truncated_witness :
  let w := started Z 0 in
  let w1 := snd (Example.run_lookup (LookupTokens (Some "1")) w) in
  let v := VArray (firstn 25 Example.thirty_tokens) in
  length Example.thirty_tokens = 30%nat /\
  Example.run_lookup (LookupTokens (Some "1")) w = (Returned v, w1) /\
  exists n r upstream,
    calls Z w1 !! n = Some (Call_getTokens (tokens_one_chain_request Z (Some "1"))) /\
    getTokens Z Example.sdk n (tokens_one_chain_request Z (Some "1")) = Returned r /\
    tokens_get Z (property_key (Some "1")) r = Some upstream /\
    v = VArray (firstn 25 upstream) /\
    length (firstn 25 upstream) <= 25.
Proof.
  cbv zeta. split; [reflexivity|]. split; [reflexivity|].
  apply (proj1 (token_lists_truncated Z Example.Number_toString Example.Number_isFinite
                  Example.Number_truthy Example.sdk Example.JSON_parse
                  Example.URLSearchParams_toString None)
           (Some "1") (started Z 0)).
  - apply reachable_started.
  - reflexivity.
Defined.

(** C10 at work, as the process starts. *)
Lemma tokens_one_chain_without_chain_witness :
  exists message w',
    fst (Example.run_lookup (LookupTokens None) (started Z 0)) = Thrown message /\
    Example.run_tool (TokensOneChain Z None) (started Z 0) =
      (Returned (Content (Some ("Failed to get tokens: " +:+ message))), w') /\
    cache Z (started Z 0) !! "tokens-all" = None /\
    cache Z w' !! "tokens-all" = None.
Proof.
  apply (tokens_one_chain_without_chain Z Example.Number_toString Example.Number_isFinite
           Example.Number_truthy Example.sdk Example.JSON_parse
           Example.URLSearchParams_toString None (started Z 0)).
  apply reachable_started.
Defined.

(** What the handler answers in that case. *)
Example tokens_one_chain_without_chain_answer :
  fst (Example.run_tool (TokensOneChain Z None) (started Z 0)) =
    Returned
      (Content
         (Some "Failed to get tokens: Cannot read properties of undefined (reading 'slice')")).
Proof. reflexivity. Qed.

(** X1 at work. *)
Lemma inherited_session_id_throws_witness :
  Example.post (Some "constructor") Example.call_body Example.one_session
    = (Uncaught "transport.handleRequest is not a function", Example.one_session) /\
  Example.get_or_delete (Some "constructor") Example.one_session
    = (Uncaught "transport.handleRequest is not a function", Example.one_session).
Proof.
  exact (inherited_session_id_throws Z Example.isInitializeRequest
           {| mcp_session_id := Some "constructor"; body := Example.call_body |}
           Example.one_session "constructor" eq_refl eq_refl eq_refl).
Defined.

(** X2 at work: the service lists its tokens by chain id, so the lookup of
    the chain key [eth] fails at the slice, and fails again, with a new call,
    a minute later. *)
Lemma failed_lookup_not_cached_witness :
  let w1 := snd (Example.run_lookup (LookupTokens (Some "eth")) (started Z 0)) in
  fst (Example.run_lookup (LookupTokens (Some "eth")) (started Z 0))
    = Thrown "Cannot read properties of undefined (reading 'slice')" /\
  length (calls Z w1) = 1%nat /\
  length (calls Z (snd (Example.run_lookup (LookupTokens (Some "eth")) (later Z 60000 w1))))
    = 2%nat.
Proof.
  cbv zeta. split; [reflexivity|].
  destruct (failed_lookup_not_cached Z Example.Number_truthy Example.sdk
              (LookupTokens (Some "eth")) (started Z 0)
              (snd (Example.run_lookup (LookupTokens (Some "eth")) (started Z 0)))
              "Cannot read properties of undefined (reading 'slice')" eq_refl)
    as [H1 H2].
  unfold Example.run_lookup in *. split; [now rewrite H1|].
  now rewrite (H2 60000%N), H1.
Defined.

(** An allowance of 2^64 reaches the client with every digit. *)
Example token_allowance_answer :
  fst (Example.run_tool (TokenAllowance Z "0xa0b8" 1%Z "0xowner" "0xspender") (started Z 0)) =
    Returned (Content (Some (dquote +:+ "18446744073709551616" +:+ dquote))).
Proof. reflexivity. Qed.

(** The chain list is asked for once, however often the tool is invoked
    within a day. *)
Example chains_asked_once :
  let w1 := snd (Example.run_tool (Chains Z) (started Z 0)) in
  let w2 := snd (Example.run_tool (Chains Z) (later Z 3600000 w1)) in
  calls Z w2 = [Call_getChains] /\
  fst (Example.run_tool (Chains Z) (later Z 3600000 w1))
    = fst (Example.run_tool (Chains Z) (started Z 0)).
Proof. split; reflexivity. Qed.

(** ** The further properties at concrete inputs *)

Module Wallet.

(** A service that knows three balances of a wallet (five units of one
    token, none of another, and one without an amount), that describes a
    token by the chain and the symbol it was asked for, and whose HTTP
    interface answers 429. *)
Definition balances : list (JsObject Z) :=
  [ [("symbol", VString "USDC"); ("amount", VBigInt 5)];
    [("symbol", VString "DAI"); ("amount", VBigInt 0)];
    [("symbol", VString "WETH")] ].

Definition sdk : Sdk Z :=
  {| getQuote := fun _ _ => Thrown "quote unavailable";
     getChains := fun _ => Returned [VObject [("id", VNumber 1%Z); ("key", VString "eth")]];
     getTokens := fun _ _ => Returned {| tokens := [(1%N, Example.thirty_tokens)] |};
     getToken := fun _ chain token =>
       Returned [("chain", chain); ("symbol", VString token)];
     getTools := fun _ _ => Thrown "tools unavailable";
     fetch := fun _ _ _ =>
       Returned {| response_ok := false;
                   response_status := 429%Z;
                   response_text := Returned "rate limited";
                   response_json := Thrown "Unexpected token" |};
     getConnections := fun _ _ => Thrown "connections unavailable";
     getTokenBalance := fun _ _ _ => Thrown "network down";
     getTokenBalances := fun _ _ _ => Returned balances;
     getTokenAllowance := fun _ _ _ _ => Returned (Some (2 ^ 64)%Z);
     getTokenAllowanceMulticall := fun _ _ _ => Thrown "network down";
     getStatus := fun _ _ => Returned (VObject [("status", VString "DONE")]);
     getRoutes := fun _ _ => Thrown "routes unavailable";
     latency := fun _ => 20%N |}.

Definition run_tool (t : tool_call Z) (w : world Z) : outcome (tool_result Z) * world Z :=
  invoke Z Example.Number_toString Example.Number_isFinite Example.Number_truthy sdk
    Example.JSON_parse Example.URLSearchParams_toString None t w.

Definition run_stdio (t : stdio_call Z) (w : world Z) : outcome (tool_result Z) * world Z :=
  stdio_invoke Z Example.Number_toString Example.Number_isFinite sdk
    Example.URLSearchParams_toString None t w.

End Wallet.

(** X4 at work: looking a token up leaves the cached chains where they
    are. *)
Lemma invoke_keeps_other_keys_witness :
  let w := snd (Example.run_tool (Chains Z) (started Z 0)) in
  cache Z (snd (Example.run_tool (Token Z "1" "USDC") w)) !! "chains"
    = cache Z w !! "chains".
Proof.
  cbv zeta.
  apply (invoke_keeps_other_keys Z Example.Number_toString Example.Number_isFinite
           Example.Number_truthy Example.sdk Example.JSON_parse
           Example.URLSearchParams_toString None (Token Z "1" "USDC")
           (snd (Example.run_tool (Chains Z) (started Z 0))) "chains").
  intros l H. destruct l; try discriminate H. injection H as <- <-.
  intros E. vm_compute in E. discriminate E.
Defined.

(** X5 at work: a day and a millisecond after the chains were cached, the
    tool asks for them again. *)
Lemma expired_entry_not_served_witness :
  let w := later Z 86400001 (snd (Example.run_tool (Chains Z) (started Z 0))) in
  calls Z (snd (Example.run_tool (Chains Z) w)) = [Call_getChains; Call_getChains].
Proof.
  cbv zeta.
  destruct (expired_entry_not_served Z Example.Number_toString Example.Number_isFinite
              Example.Number_truthy Example.sdk Example.JSON_parse
              Example.URLSearchParams_toString None LookupChains
              (later Z 86400001 (snd (Example.run_tool (Chains Z) (started Z 0))))
              (CacheEntry Z
                 (VArray [VObject [("id", VNumber 1%Z); ("key", VString "eth")]])
                 86400020)
              eq_refl eq_refl)
    as (_ & H & _).
  exact H.
Defined.

(** X7 at work: the chain key [eth] is no chain id. *)
Lemma tokens_one_chain_needs_chain_id_witness :
  exists message,
    fst (Example.run_tool (TokensOneChain Z (Some "eth")) (started Z 0))
      = Returned (text_catch Z "Failed to get tokens" message).
Proof.
  destruct (tokens_one_chain_needs_chain_id Z Example.Number_toString
              Example.Number_isFinite Example.Number_truthy Example.sdk
              Example.JSON_parse Example.URLSearchParams_toString None
              (Some "eth") (started Z 0)
              (reachable_started Z Example.Number_toString Example.Number_isFinite
                 Example.Number_truthy Example.sdk Example.JSON_parse
                 Example.URLSearchParams_toString None 0%N)
              eq_refl)
    as [_ [message H]].
  exists message. unfold Example.run_tool. now rewrite H.
Defined.

(** X8 at work: of two sessions, the close of the first leaves the
    second. *)
Lemma closing_unregisters_only_the_session_witness :
  let g := session_initialized 1 "S2" (session_initialized 0 "S1" Example.no_sessions) in
  transports (onclose 0 g) !! "S1" <> Some 0%nat /\
  transports (onclose 0 g) !! "S2" = Some 1%nat.
Proof.
  cbv zeta.
  assert (Hg : serving Z Example.isInitializeRequest
                 (session_initialized 1 "S2"
                    (session_initialized 0 "S1" Example.no_sessions))).
  { apply serving_initialized; [apply serving_initialized| |].
    - apply serving_start.
    - reflexivity.
    - intros t' H. simpl in H. rewrite lookup_empty in H. discriminate H.
    - reflexivity.
    - intros t' H. simpl in H. apply lookup_insert_Some in H as [[_ H]|[_ H]].
      + discriminate H.
      + rewrite lookup_empty in H. discriminate H. }
  destruct (closing_unregisters_only_the_session Z Example.isInitializeRequest _ 0%nat Hg)
    as (_ & H1 & H2).
  split; [apply H1|]. apply H2; [discriminate | reflexivity].
Defined.


(** X10 at work: a response 429 becomes the error text. *)
Lemma fetch_tools_report_http_errors_witness :
  fst (Wallet.run_tool (GasPrices Z) (started Z 0))
    = Returned (Content (Some "Failed to get gas prices: HTTP 429: rate limited")).
Proof.
  destruct (fetch_tools_report_http_errors Z Example.Number_toString
              Example.Number_isFinite Example.Number_truthy Wallet.sdk
              Example.JSON_parse Example.URLSearchParams_toString None
              (GasPrices Z) (started Z 0) eq_refl)
    as (url & _ & H).
  unfold Wallet.run_tool. rewrite H. reflexivity.
Defined.

(** X11 at work: of the three balances, the one of five units is kept. *)
Lemma token_balances_keeps_positive_witness :
  exists kept text,
    sublist kept Wallet.balances /\
    (forall b,
        In b kept <->
        In b Wallet.balances /\
        exists z, get_property Z "amount" b = VBigInt z /\ (0 < z)%Z) /\
    safeStringify Z Example.Number_toString Example.Number_isFinite
      (VArray (map VObject kept)) = JText text.
Proof.
  destruct (token_balances_keeps_positive Z Example.Number_toString
              Example.Number_isFinite Example.Number_truthy Wallet.sdk
              Example.JSON_parse Example.URLSearchParams_toString None
              "0xabc" 1%Z (started Z 0)
              {| tokens := [(1%N, Example.thirty_tokens)] |} Wallet.balances
              eq_refl eq_refl)
    as (kept & text & H1 & H2 & H3 & _).
  now exists kept, text.
Defined.

(** The indented text of an object: a property that is [undefined] is left
    out, an empty object stays on its line. *)
Example JSON_stringify_indented :
  JSON_stringify_space Z Example.Number_toString Example.Number_isFinite
    (VObject [ ("id", VNumber 1%Z); ("tags", VArray [VString "a"; VNull]);
               ("none", VUndefined); ("empty", VObject []) ]) 2
  = JText
      (String.concat newline
         [ "{";
           "  " +:+ dquote +:+ "id" +:+ dquote +:+ ": 1,";
           "  " +:+ dquote +:+ "tags" +:+ dquote +:+ ": [";
           "    " +:+ dquote +:+ "a" +:+ dquote +:+ ",";
           "    null";
           "  ],";
           "  " +:+ dquote +:+ "empty" +:+ dquote +:+ ": {}";
           "}" ]).
Proof. reflexivity. Qed.

(** X13 at work: the balances hold a bigint, so the stdio server answers
    with the error. *)
Lemma stdio_bigint_results_fail_witness :
  fst (Wallet.run_stdio (StdioTokenBalances Z "0xabc" 1%Z) (started Z 0))
    = Returned
        (Content
           (Some "Failed to get token balances: Do not know how to serialize a BigInt")).
Proof.
  unfold Wallet.run_stdio.
  rewrite (stdio_bigint_results_fail Z Example.Number_toString Example.Number_isFinite
             Wallet.sdk Example.URLSearchParams_toString None
             (StdioTokenBalances Z "0xabc" 1%Z) (started Z 0)
             (snd (stdio_body Z Example.Number_toString Wallet.sdk
                     Example.URLSearchParams_toString None
                     (StdioTokenBalances Z "0xabc" 1%Z) (started Z 0)))
             (VArray (map VObject Wallet.balances)) eq_refl).
  reflexivity.
Defined.

(** X14 at work: the allowance of 2^64, lost by the stdio server, kept by the
    HTTP server. *)
Lemma stdio_token_allowance_fails_witness :
  fst (stdio_invoke Z Example.Number_toString Example.Number_isFinite Example.sdk
         Example.URLSearchParams_toString None
         (StdioTokenAllowance Z "0xa0b8" 1%Z "0xowner" "0xspender") (started Z 0))
    = Returned
        (Content
           (Some "Failed to get token allowance: Do not know how to serialize a BigInt")) /\
  fst (Example.run_tool (TokenAllowance Z "0xa0b8" 1%Z "0xowner" "0xspender") (started Z 0))
    = Returned (Content (Some (dquote +:+ "18446744073709551616" +:+ dquote))).
Proof.
  destruct (stdio_token_allowance_fails Z Example.Number_toString Example.Number_isFinite
              Example.Number_truthy Example.sdk Example.JSON_parse
              Example.URLSearchParams_toString None
              "0xa0b8" 1%Z "0xowner" "0xspender" (started Z 0)
              [("symbol", VString "USDC"); ("decimals", VNumber 6%Z)] (2 ^ 64)%Z
              eq_refl eq_refl)
    as (H1 & H2 & _).
  split; [exact H1 | exact H2].
Defined.

(** X16 at work: asked for the token [b-c] of the chain [a], the tool
    answers, without a call, with the token [c] of the chain [a-b]. *)
Lemma colliding_keys_share_entry_witness :
  let w1 := snd (Wallet.run_tool (Token Z "a-b" "c") (started Z 0)) in
  Wallet.run_tool (Token Z "a" "b-c") (later Z 1000 w1) =
    (fst (Wallet.run_tool (Token Z "a-b" "c") (started Z 0)), later Z 1000 w1) /\
  calls Z w1 = [Call_getToken (VString "a-b") "c"].
Proof.
  cbv zeta. split; [|reflexivity].
  destruct (colliding_keys_share_entry Z Example.Number_toString Example.Number_isFinite
              Example.Number_truthy Wallet.sdk Example.JSON_parse
              Example.URLSearchParams_toString None
              (LookupToken "a-b" "c") (LookupToken "a" "b-c") (started Z 0)
              (snd (lookup_body Z Example.Number_truthy Wallet.sdk
                      (LookupToken "a-b" "c") (started Z 0)))
              (VObject [("chain", VString "a-b"); ("symbol", VString "c")])
              eq_refl eq_refl)
    as (e & E & _ & _ & Hhit).
  vm_compute in E. injection E as <-. exact (Hhit 1000%N eq_refl).
Defined.
